(** * go-filecoin: chain sampler, election worker and gas tracker

    A shallow embedding of

    - [vmcontext.GasTracker] (gas accounting of one message),
    - [chain.Sampler] (randomness seeds drawn from the chain),
    - [mining.DefaultWorker.Mine] (one leader-election attempt),

    together with the properties the specification states about them. *)

From Stdlib Require Import ZArith List Lia Bool.
From Stdlib Require Import Strings.Byte Sorting.Sorted.
From Stdlib Require Strings.String.
Import ListNotations.
Local Open Scope Z_scope.
Local Open Scope list_scope.

(** ** Go's [(value, error)] returns *)

(** A Go function returning [(T, error)] either fails with a non-nil error or
    succeeds with a value. *)
Inductive result (E A : Type) : Type :=
| Ok (a : A)
| Fail (e : E).
Arguments Ok {E A} a.
Arguments Fail {E A} e.

Definition isOk {E A} (r : result E A) : bool :=
  match r with Ok _ => true | Fail _ => false end.

(** ** vmcontext: the gas tracker *)

Module GasTracking.

(** [gas.Unit] is an arbitrary-precision integer ([big.Int]). *)
Definition Unit := Z.

Record GasTracker := mkGasTracker {
  gasLimit : Unit;
  gasConsumed : Unit
}.

Definition NewGasTracker (limit : Unit) : GasTracker :=
  {| gasLimit := limit; gasConsumed := 0 |}.

(** [TryCharge] mutates the tracker through its pointer receiver: the model
    returns the tracker after the call next to the boolean. *)
Definition TryCharge (t : GasTracker) (amount : Unit) : GasTracker * bool :=
  let aux := gasConsumed t + amount in
  if aux >? gasLimit t
  then ({| gasLimit := gasLimit t; gasConsumed := gasLimit t |}, false)
  else ({| gasLimit := gasLimit t; gasConsumed := aux |}, true).

Definition GasConsumed (t : GasTracker) : Unit := gasConsumed t.

Definition RemainingGas (t : GasTracker) : Unit := gasLimit t - gasConsumed t.

(** [Charge] aborts the message ([runtime.Abort]) when the charge fails;
    [None] stands for the abort. *)
Definition Charge (t : GasTracker) (amount : Unit) : option GasTracker :=
  let (t', ok) := TryCharge t amount in
  if ok then Some t' else None.

Lemma TryCharge_limit t amount : gasLimit (fst (TryCharge t amount)) = gasLimit t.
Proof. unfold TryCharge. destruct (_ >? _); reflexivity. Qed.

(** C10. A charge that fits ([gasConsumed + amount <= gasLimit]) returns
    true and adds exactly [amount] to [gasConsumed]; any other charge
    returns false and moves [gasConsumed] to [gasLimit], so that no gas
    remains: a failed [TryCharge] changes the tracker. *)
Theorem TryCharge_spec (t : GasTracker) (amount : Unit) :
  (gasConsumed t + amount <= gasLimit t ->
     snd (TryCharge t amount) = true /\
     gasConsumed (fst (TryCharge t amount)) = gasConsumed t + amount /\
     gasLimit (fst (TryCharge t amount)) = gasLimit t) /\
  (~ gasConsumed t + amount <= gasLimit t ->
     snd (TryCharge t amount) = false /\
     gasConsumed (fst (TryCharge t amount)) = gasLimit t /\
     gasLimit (fst (TryCharge t amount)) = gasLimit t /\
     RemainingGas (fst (TryCharge t amount)) = 0).
Proof.
  unfold TryCharge, RemainingGas.
  destruct (Z.gtb_spec (gasConsumed t + amount) (gasLimit t)) as [Hgt | Hle];
    cbn [fst snd gasConsumed gasLimit]; split; intros H;
    try lia; intuition lia.
Qed.

(** Both branches of C10 on trackers with limit 10: charging 4 on top of 3
    fits, charging 9 on top of 3 does not, and the failed charge is not a
    no-op (consumption moves from 3 to 10). *)
Lemma TryCharge_spec_witness :
  (snd (TryCharge (mkGasTracker 10 3) 4) = true /\
   gasConsumed (fst (TryCharge (mkGasTracker 10 3) 4)) = 7) /\
  (snd (TryCharge (mkGasTracker 10 3) 9) = false /\
   gasConsumed (fst (TryCharge (mkGasTracker 10 3) 9)) = 10 /\
   RemainingGas (fst (TryCharge (mkGasTracker 10 3) 9)) = 0).
Proof.
  split.
  - destruct (proj1 (TryCharge_spec (mkGasTracker 10 3) 4)) as (H1 & H2 & _).
    + cbn; lia.
    + split; [exact H1 | exact H2].
  - destruct (proj2 (TryCharge_spec (mkGasTracker 10 3) 9)) as (H1 & H2 & _ & H4).
    + cbn; lia.
    + split; [exact H1 | split; [exact H2 | exact H4]].
Defined.

(** *** Further properties of the tracker *)

(** Successive calls of [Charge], as the execution of one message makes
    them; the first charge that aborts ends the run. *)
Fixpoint ChargeAll (t : GasTracker) (amounts : list Unit) : option GasTracker :=
  match amounts with
  | [] => Some t
  | amount :: rest =>
      match Charge t amount with
      | Some t' => ChargeAll t' rest
      | None => None
      end
  end.

Definition total (amounts : list Unit) : Unit := fold_right Z.add 0 amounts.

(** X1. As its comment says, [TryCharge] charges [amount] or
    [RemainingGas()], whichever is smaller, and it returns true exactly
    when [amount] is the smaller one; this holds in every state and for
    every amount, negative ones included. *)
Theorem TryCharge_charges_min (t : GasTracker) (amount : Unit) :
  gasConsumed (fst (TryCharge t amount))
    = gasConsumed t + Z.min amount (RemainingGas t) /\
  (snd (TryCharge t amount) = true <-> amount <= RemainingGas t).
Proof.
  unfold TryCharge, RemainingGas.
  destruct (Z.gtb_spec (gasConsumed t + amount) (gasLimit t));
    cbn [fst snd gasConsumed]; split; try lia; split; intros; try lia;
    try discriminate; reflexivity.
Qed.

(** X2. Whatever the tracker held before, after a [TryCharge] the gas
    consumed does not exceed the limit, the remaining gas is not negative,
    and the limit is the one before. *)
Theorem TryCharge_within_limit (t : GasTracker) (amount : Unit) :
  gasConsumed (fst (TryCharge t amount)) <= gasLimit (fst (TryCharge t amount)) /\
  0 <= RemainingGas (fst (TryCharge t amount)) /\
  gasLimit (fst (TryCharge t amount)) = gasLimit t.
Proof.
  unfold TryCharge, RemainingGas.
  destruct (Z.gtb_spec (gasConsumed t + amount) (gasLimit t));
    cbn [fst snd gasConsumed gasLimit]; lia.
Qed.

(** X3. Running out of gas is final: after a failed [TryCharge] every
    further charge of a positive amount fails and leaves the tracker as it
    is, while a charge of zero still succeeds. *)
Theorem TryCharge_exhausted (t : GasTracker) (amount : Unit) :
  snd (TryCharge t amount) = false ->
  (forall more, 0 < more ->
     TryCharge (fst (TryCharge t amount)) more = (fst (TryCharge t amount), false)) /\
  TryCharge (fst (TryCharge t amount)) 0 = (fst (TryCharge t amount), true).
Proof.
  unfold TryCharge at 1 3 4 6 7.
  destruct (Z.gtb_spec (gasConsumed t + amount) (gasLimit t)) as [Hgt | Hle];
    cbn [fst snd]; [intros _ | discriminate].
  split.
  - intros more Hmore. unfold TryCharge. cbn [gasConsumed gasLimit].
    destruct (Z.gtb_spec (gasLimit t + more) (gasLimit t)); [reflexivity | lia].
  - unfold TryCharge. cbn [gasConsumed gasLimit].
    destruct (Z.gtb_spec (gasLimit t + 0) (gasLimit t)); [lia |].
    rewrite Z.add_0_r. reflexivity.
Qed.

Lemma TryCharge_exhausted_witness :
  TryCharge (fst (TryCharge (mkGasTracker 10 3) 9)) 1
    = (mkGasTracker 10 10, false) /\
  TryCharge (fst (TryCharge (mkGasTracker 10 3) 9)) 0
    = (mkGasTracker 10 10, true).
Proof.
  destruct (TryCharge_exhausted (mkGasTracker 10 3) 9 eq_refl) as [Hpos Hzero].
  split; [apply (Hpos 1); lia | exact Hzero].
Defined.

(** X4. Two charges in a row, the second one not negative, leave the
    tracker as one charge of the sum does, and both succeed exactly when
    the charge of the sum succeeds. *)
Theorem TryCharge_twice (t : GasTracker) (a b : Unit) :
  0 <= b ->
  fst (TryCharge (fst (TryCharge t a)) b) = fst (TryCharge t (a + b)) /\
  snd (TryCharge t a) && snd (TryCharge (fst (TryCharge t a)) b)
    = snd (TryCharge t (a + b)).
Proof.
  intros Hb. unfold TryCharge.
  destruct (Z.gtb_spec (gasConsumed t + a) (gasLimit t));
    cbn [fst snd gasConsumed gasLimit];
    destruct (Z.gtb_spec (gasConsumed t + (a + b)) (gasLimit t));
    try lia.
  - destruct (Z.gtb_spec (gasLimit t + b) (gasLimit t));
      cbn [fst snd]; split; try reflexivity.
    f_equal. lia.
  - destruct (Z.gtb_spec (gasConsumed t + a + b) (gasLimit t)); [| lia].
    split; reflexivity.
  - destruct (Z.gtb_spec (gasConsumed t + a + b) (gasLimit t)); [lia |].
    cbn [fst snd]. split; [f_equal; lia | reflexivity].
Qed.

Lemma TryCharge_twice_witness :
  fst (TryCharge (fst (TryCharge (mkGasTracker 10 3) 4)) 2)
    = fst (TryCharge (mkGasTracker 10 3) (4 + 2)) /\
  snd (TryCharge (mkGasTracker 10 3) 4)
  && snd (TryCharge (fst (TryCharge (mkGasTracker 10 3) 4)) 2)
    = snd (TryCharge (mkGasTracker 10 3) (4 + 2)).
Proof. apply (TryCharge_twice (mkGasTracker 10 3) 4 2). lia. Defined.

Lemma Charge_some (t : GasTracker) (amount : Unit) :
  Charge t amount =
  if gasConsumed t + amount >? gasLimit t then None
  else Some {| gasLimit := gasLimit t; gasConsumed := gasConsumed t + amount |}.
Proof.
  unfold Charge, TryCharge. destruct (_ >? _); reflexivity.
Qed.

(** X5. A run of [Charge] calls with amounts that are not negative, on a
    tracker within its limit, goes through without abort exactly when the
    amounts add up to no more than the remaining gas, and then the gas
    consumed has grown by their sum. *)
Theorem ChargeAll_total (t : GasTracker) (amounts : list Unit) :
  Forall (fun a => 0 <= a) amounts ->
  gasConsumed t <= gasLimit t ->
  ChargeAll t amounts =
  if total amounts <=? RemainingGas t
  then Some {| gasLimit := gasLimit t;
               gasConsumed := gasConsumed t + total amounts |}
  else None.
Proof.
  intros Hpos. revert t. unfold RemainingGas.
  induction Hpos as [| a rest Ha Hrest IH]; intros t Hin.
  - cbn. destruct (Z.leb_spec 0 (gasLimit t - gasConsumed t)); [| lia].
    rewrite Z.add_0_r. destruct t; reflexivity.
  - assert (Hsum : 0 <= total rest).
    { clear - Hrest. unfold total. induction Hrest; cbn [fold_right]; lia. }
    cbn [ChargeAll total fold_right]. fold (total rest).
    rewrite Charge_some.
    destruct (Z.gtb_spec (gasConsumed t + a) (gasLimit t)) as [Hgt | Hle].
    + destruct (Z.leb_spec (a + total rest) (gasLimit t - gasConsumed t));
        [lia | reflexivity].
    + rewrite IH by (cbn; lia). cbn [gasLimit gasConsumed].
      destruct (Z.leb_spec (total rest) (gasLimit t - (gasConsumed t + a)));
        destruct (Z.leb_spec (a + total rest) (gasLimit t - gasConsumed t));
        try lia; [| reflexivity].
      f_equal. f_equal. lia.
Qed.

Lemma ChargeAll_total_witness :
  ChargeAll (NewGasTracker 10) [3; 0; 4] = Some (mkGasTracker 10 7) /\
  ChargeAll (NewGasTracker 10) [3; 4; 5] = None.
Proof.
  split.
  - apply (ChargeAll_total (NewGasTracker 10) [3; 0; 4]).
    + repeat constructor; lia.
    + cbn. lia.
  - apply (ChargeAll_total (NewGasTracker 10) [3; 4; 5]).
    + repeat constructor; lia.
    + cbn. lia.
Defined.


End GasTracking.

(** ** Bytes and the big-endian encoding of [encoding/binary] *)

Module Binary.

(** Go's [byte(x)] conversion keeps the low eight bits. *)
Definition byteOf (z : Z) : byte :=
  match Byte.of_N (Z.to_N (z mod 256)) with
  | Some b => b
  | None => x00
  end.


Definition uint64 (v : Z) : Z := v mod 2 ^ 64.

(** The conversion of an integer to [int64] keeps its low 64 bits, read as
    a two's complement number. *)
Definition toInt64 (v : Z) : Z :=
  let u := uint64 v in
  if u <? 2 ^ 63 then u else u - 2 ^ 64.

(** [binary.BigEndian.PutUint64]: most significant byte first. *)
Definition PutUint64 (v : Z) : list byte :=
  map (fun s => byteOf (Z.shiftr v s)) [56; 48; 40; 32; 24; 16; 8; 0].

(** [binary.Write(&buf, binary.BigEndian, v)] for an [int64] [v] appends its
    eight bytes to the buffer; for a fixed-size value the call cannot fail. *)
Definition Write (buf : list byte) (v : Z) : list byte :=
  buf ++ PutUint64 (uint64 v).



Lemma PutUint64_length v : length (PutUint64 v) = 8%nat.
Proof. reflexivity. Qed.






End Binary.

(** ** chain: tipsets, the ancestor iterator and the sampler *)

Module Chain.

Section Sampler.

(** Block identifiers, Go [error] values, and the two things the sampler
    takes from outside the repository: the error an undefined tipset
    answers with, and [blake2b.Sum256]. *)
Variable Cid : Type.
Variable Error : Type.
Variable errUndefTipSet : Error.
Variable Sum256 : list byte -> list byte.

(** *** block: keys, tickets and tipsets *)

(** Modelled from the spec: [block.TipSetKey] (section 3), the identifier
    of a tipset, whose distinguished empty key denotes "no chain yet". *)
Definition TipSetKey := list Cid.

(** Modelled from the spec: [block.NewTipSetKey] without arguments, the
    empty key (section 3). *)
Definition NewTipSetKey : TipSetKey := [].

(** Modelled from the spec: [TipSetKey.Empty], the test for the empty key
    (sections 3 and 4.2). *)
Definition Empty (k : TipSetKey) : bool :=
  match k with [] => true | _ :: _ => false end.

Record Ticket := mkTicket { VRFProof : list byte }.

(** Modelled from the spec: [block.TipSet] (section 3) exposes its key,
    a height, its parents' key and its minimum ticket; the zero value
    [UndefTipSet] holds no block and answers every accessor with an
    error, as the accessors' [(value, error)] signatures show. *)
Record TipSetData := mkTipSet {
  tsKey : TipSetKey;
  tsHeight : Z;
  tsParents : TipSetKey;
  tsMinTicket : Ticket
}.

Definition TipSet := option TipSetData.

Definition UndefTipSet : TipSet := None.

(** Modelled from the spec: [TipSet.Defined], whether the tipset holds a
    block ("the base tipset must be defined (non-empty)", section 4.4). *)
Definition Defined (ts : TipSet) : bool :=
  match ts with Some _ => true | None => false end.

(** Modelled from the spec: the accessors [TipSet.Key], [TipSet.Height],
    [TipSet.Parents] and [TipSet.MinTicket] (section 3); all but [Key]
    return an error next to the value. *)
Definition Key (ts : TipSet) : TipSetKey :=
  match ts with
  | Some d => tsKey d
  | None => NewTipSetKey
  end.

Definition Height (ts : TipSet) : result Error Z :=
  match ts with
  | Some d => Ok (tsHeight d)
  | None => Fail errUndefTipSet
  end.

Definition Parents (ts : TipSet) : result Error TipSetKey :=
  match ts with
  | Some d => Ok (tsParents d)
  | None => Fail errUndefTipSet
  end.

Definition MinTicket (ts : TipSet) : result Error Ticket :=
  match ts with
  | Some d => Ok (tsMinTicket d)
  | None => Fail errUndefTipSet
  end.

(** The [TipSetProvider] interface. *)
Record TipSetProvider := mkProvider {
  GetTipSet : TipSetKey -> result Error TipSet
}.

(** *** The ancestor iterator *)

(** Modelled from the spec: [IterAncestors] and its iterator
    (section 4.1) yield the start tipset and then each parent tipset
    down to genesis; a step re-reads the store and either yields the
    next ancestor, completes below genesis, or fails when the parent
    key cannot be resolved. *)
Record TipsetIterator := mkIterator {
  store : TipSetProvider;
  value : TipSet
}.

(** Modelled from the spec: [IterAncestors] starts at the given tipset
    (section 4.1). *)
Definition IterAncestors (rd : TipSetProvider) (start : TipSet) : TipsetIterator :=
  {| store := rd; value := start |}.

(** Modelled from the spec: [Complete] signals that the sequence has ended
    below genesis, and [Value] is the tipset the iterator stands on
    (section 4.1). *)
Definition Complete (it : TipsetIterator) : bool := negb (Defined (value it)).

Definition Value (it : TipsetIterator) : TipSet := value it.

(** Modelled from the spec: [Next] (section 4.1) reads the parents of the
    current tipset from the store: it yields the next ancestor, completes
    at genesis, whose parent key is empty, or fails when the parent key
    cannot be resolved. It returns the advanced iterator and Go's [error]
    ([None] is nil). *)
Definition Next (it : TipsetIterator) : TipsetIterator * option Error :=
  match Parents (value it) with
  | Fail e => ({| store := store it; value := UndefTipSet |}, Some e)
  | Ok parentKey =>
      if Empty parentKey
      then ({| store := store it; value := UndefTipSet |}, None)
      else match GetTipSet (store it) parentKey with
           | Ok ts => ({| store := store it; value := ts |}, None)
           | Fail e => ({| store := store it; value := UndefTipSet |}, Some e)
           end
  end.

(** *** The sampler *)

Record Sampler := mkSampler { reader : TipSetProvider }.

Definition NewSampler (rd : TipSetProvider) : Sampler := {| reader := rd |}.

Definition RandomSeed := list byte.

(** The [for] loop of [findTipsetAtEpoch]: [ts] and [err] are the named
    results, [it] the iterator. Each turn tests [!iterator.Complete()],
    runs the body and then the post statement [err = iterator.Next()].
    [None] means the fuel ran out before the loop ended. *)
Fixpoint findLoop (fuel : nat) (it : TipsetIterator) (ts : TipSet)
    (err : option Error) (epoch : Z) : option (TipSet * option Error) :=
  match fuel with
  | O => None
  | S fuel' =>
      if Complete it then Some (ts, err)
      else match err with
           | Some e => Some (ts, Some e)
           | None =>
               let ts := Value it in
               match Height ts with
               | Fail e => Some (ts, Some e)
               | Ok h =>
                   if h <=? epoch then Some (ts, None)
                   else let (it', err') := Next it in
                        findLoop fuel' it' ts err' epoch
               end
           end
  end.

Definition findTipsetAtEpoch (fuel : nat) (s : Sampler) (start : TipSet)
    (epoch : Z) : option (TipSet * option Error) :=
  let iterator := IterAncestors (reader s) start in
  findLoop fuel iterator UndefTipSet None epoch.

Definition Sample (fuel : nat) (s : Sampler) (head : TipSetKey) (epoch : Z)
    : option (result Error RandomSeed) :=
  let hash (ticket : Ticket) : option (result Error RandomSeed) :=
    let buf : list byte := [] in
    let vrfDigest := Sum256 (VRFProof ticket) in
    let buf := buf ++ vrfDigest in
    let buf := Binary.Write buf epoch in
    let bufHash := Sum256 buf in
    Some (Ok bufHash) in
  if negb (Empty head) then
    match GetTipSet (reader s) head with
    | Fail e => Some (Fail e)
    | Ok start =>
        match findTipsetAtEpoch fuel s start epoch with
        | None => None
        | Some (_, Some e) => Some (Fail e)
        | Some (tip, None) =>
            match MinTicket tip with
            | Fail e => Some (Fail e)
            | Ok ticket => hash ticket
            end
        end
    end
  else
    (* Sampling for the genesis block. *)
    hash {| VRFProof := [] |}.

(** A chain sampler with a specific head tipset key. *)
Record SamplerAtHead := mkSamplerAtHead {
  sampler : Sampler;
  head : TipSetKey
}.

Definition NewSamplerAtHead (rd : TipSetProvider) (hd : TipSetKey) : SamplerAtHead :=
  {| sampler := NewSampler rd; head := hd |}.

Definition SampleAtHead (fuel : nat) (s : SamplerAtHead) (epoch : Z)
    : option (result Error RandomSeed) :=
  Sample fuel (sampler s) (head s) epoch.

(** *** What the specification speaks of *)

(** The seed the specification prescribes for a ticket and an epoch:
    digest of (digest of the proof, followed by the epoch's eight
    big-endian bytes). *)
Definition seedOf (ticket : Ticket) (epoch : Z) : RandomSeed :=
  Sum256 (Sum256 (VRFProof ticket) ++ Binary.PutUint64 (Binary.uint64 epoch)).

(** [Walk rd d l r]: reading backward from the tipset [d], the store
    yields the tipsets [l] ([d] first) and then either runs out below
    genesis ([r = None]) or fails to resolve a parent key with [e]
    ([r = Some e]). *)
Inductive Walk (rd : TipSetProvider) : TipSetData -> list TipSetData -> option Error -> Prop :=
| walk_genesis d :
    Empty (tsParents d) = true ->
    Walk rd d [d] None
| walk_fail d e :
    Empty (tsParents d) = false ->
    GetTipSet rd (tsParents d) = Fail e ->
    Walk rd d [d] (Some e)
| walk_step d p l r :
    Empty (tsParents d) = false ->
    GetTipSet rd (tsParents d) = Ok (Some p) ->
    Walk rd p l r ->
    Walk rd d (d :: l) r.

(** Heights strictly decrease from each tipset to its ancestors. *)
Definition Descending (l : list TipSetData) : Prop :=
  StronglySorted (fun a b => tsHeight b < tsHeight a) l.

(** The first tipset of a backward walk with height at most [epoch]. *)
Definition firstAtOrBelow (epoch : Z) (l : list TipSetData) : option TipSetData :=
  find (fun x => tsHeight x <=? epoch) l.

(** [Sample] meets a chain-read failure [e]: the head key does not
    resolve, or the backward walk from the head tipset stays above
    [epoch] until a parent key fails to resolve. *)
Definition ReadFailure (s : Sampler) (head : TipSetKey) (epoch : Z) (e : Error) : Prop :=
  Empty head = false /\
  (GetTipSet (reader s) head = Fail e \/
   exists d l,
     GetTipSet (reader s) head = Ok (Some d) /\
     Walk (reader s) d l (Some e) /\
     Forall (fun x => epoch < tsHeight x) l).

(** The store answers a successful read with a defined tipset, and the
    backward walk from every stored tipset is finite. *)
Definition WellFormed (rd : TipSetProvider) : Prop :=
  forall k ts, GetTipSet rd k = Ok ts ->
    exists d l r, ts = Some d /\ Walk rd d l r.

(** [Sample] resolves [head] and [epoch] to the tipset [T]. *)
Definition ResolvesTo (fuel : nat) (s : Sampler) (head : TipSetKey) (epoch : Z)
    (T : TipSetData) : Prop :=
  Empty head = false /\
  exists start,
    GetTipSet (reader s) head = Ok start /\
    findTipsetAtEpoch fuel s start epoch = Some (Some T, None).

(** *** The loop against the backward walk *)

Lemma last_default_irrelevant {A} (l : list A) (d d' : A) :
  l <> [] -> last l d = last l d'.
Proof.
  induction l as [| x [| y l'] IH]; intros Hne.
  - contradiction.
  - reflexivity.
  - change (last (y :: l') d = last (y :: l') d'). apply IH. discriminate.
Qed.

Lemma Walk_nonempty rd d l r : Walk rd d l r -> l <> [].
Proof. intros H; destruct H; discriminate. Qed.

Lemma Walk_head rd d l r : Walk rd d l r -> exists l', l = d :: l'.
Proof. intros H; destruct H; eauto. Qed.

Lemma Walk_genesis_last rd d l :
  Walk rd d l None -> Empty (tsParents (last l d)) = true.
Proof.
  intros H. remember None as r eqn:Hr. induction H; try discriminate.
  - assumption.
  - destruct (Walk_head _ _ _ _ H1) as [l' ->].
    change (last (d :: p :: l') d) with (last (p :: l') d).
    rewrite (last_default_irrelevant (p :: l') d p) by discriminate.
    auto.
Qed.

Lemma findLoop_walk rd d l r :
  Walk rd d l r ->
  forall fuel ts0 epoch,
    (length l < fuel)%nat ->
    findLoop fuel (mkIterator rd (Some d)) ts0 None epoch =
    Some (match firstAtOrBelow epoch l with
          | Some T => (Some T, None)
          | None => (Some (last l d), r)
          end).
Proof.
  induction 1 as [d Hg | d e Hp Hf | d p l r Hp Hget Hw IH];
    intros fuel ts0 epoch Hfuel;
    (destruct fuel as [| fuel]; [cbn in Hfuel; lia |]);
    cbn [findLoop Complete Defined value negb Value Height];
    unfold firstAtOrBelow; cbn [find];
    destruct (tsHeight d <=? epoch) eqn:Hh; try reflexivity;
    unfold Next; cbn [Parents value store].
  - rewrite Hg.
    destruct fuel as [| fuel]; [cbn in Hfuel; lia |]. reflexivity.
  - rewrite Hp, Hf.
    destruct fuel as [| fuel]; [cbn in Hfuel; lia |]. reflexivity.
  - rewrite Hp, Hget.
    rewrite (IH fuel (Some d) epoch) by (cbn in Hfuel; lia).
    unfold firstAtOrBelow.
    destruct (find _ l); [reflexivity |].
    destruct (Walk_head _ _ _ _ Hw) as [l' ->].
    change (last (d :: p :: l') d) with (last (p :: l') d).
    rewrite (last_default_irrelevant (p :: l') d p) by discriminate.
    reflexivity.
Qed.

Lemma Walk_deterministic rd d l r :
  Walk rd d l r -> forall l' r', Walk rd d l' r' -> l = l' /\ r = r'.
Proof.
  induction 1 as [d Hg | d e Hp Hf | d p l r Hp Hget Hw IH];
    intros l' r' H';
    inversion H' as [d0 Hg' | d0 e' Hp' Hf' | d0 p' l0 r0 Hp' Hget' Hw'];
    subst; try congruence; auto.
  - split; congruence.
  - assert (p' = p) by congruence. subst p'.
    destruct (IH _ _ Hw') as [-> ->]. auto.
Qed.

Lemma firstAtOrBelow_some epoch l T :
  firstAtOrBelow epoch l = Some T -> In T l /\ tsHeight T <= epoch.
Proof.
  unfold firstAtOrBelow. intros H. apply find_some in H.
  destruct H as [Hin Hle]. split; [exact Hin | lia].
Qed.

Lemma firstAtOrBelow_none epoch l :
  firstAtOrBelow epoch l = None -> forall x, In x l -> epoch < tsHeight x.
Proof.
  unfold firstAtOrBelow. intros H x Hin.
  pose proof (find_none _ _ H x Hin) as Hx. cbn in Hx. lia.
Qed.

Lemma firstAtOrBelow_all_above epoch l :
  (forall x, In x l -> epoch < tsHeight x) -> firstAtOrBelow epoch l = None.
Proof.
  unfold firstAtOrBelow. induction l as [| a l IH]; intros H; [reflexivity |].
  cbn [find]. pose proof (H a (or_introl eq_refl)) as Ha.
  destruct (Z.leb_spec (tsHeight a) epoch); [lia |].
  apply IH. intros x Hx. apply H. right. exact Hx.
Qed.

(** On a descending walk the first tipset at or below the epoch is the
    highest one. *)
Lemma firstAtOrBelow_highest epoch l T :
  Descending l ->
  firstAtOrBelow epoch l = Some T ->
  forall x, In x l -> tsHeight x <= epoch -> tsHeight x <= tsHeight T.
Proof.
  unfold firstAtOrBelow, Descending.
  induction l as [| a l IH]; intros Hs Hf x Hin Hx; [contradiction |].
  apply StronglySorted_inv in Hs. destruct Hs as [Hs Hall].
  cbn [find] in Hf. destruct (Z.leb_spec (tsHeight a) epoch) as [Ha | Ha].
  - injection Hf as <-. destruct Hin as [<- | Hin]; [lia |].
    rewrite Forall_forall in Hall. specialize (Hall x Hin). lia.
  - destruct Hin as [<- | Hin]; [lia |]. eauto.
Qed.

Lemma Descending_last_lowest l d :
  Descending l -> forall x, In x l -> tsHeight (last l d) <= tsHeight x.
Proof.
  unfold Descending. induction l as [| a l IH]; intros Hs x Hin; [contradiction |].
  apply StronglySorted_inv in Hs. destruct Hs as [Hs Hall].
  destruct l as [| b l'].
  - destruct Hin as [<- | []]. cbn. lia.
  - change (last (a :: b :: l') d) with (last (b :: l') d).
    destruct Hin as [<- | Hin]; [| apply IH; assumption].
    rewrite Forall_forall in Hall.
    assert (Hl : In (last (b :: l') d) (b :: l')).
    { rewrite (last_default_irrelevant (b :: l') d b) by discriminate.
      destruct (exists_last (l := b :: l') ltac:(discriminate)) as (l0 & z & E).
      rewrite E, last_last. apply in_or_app. right. left. reflexivity. }
    specialize (Hall _ Hl). lia.
Qed.

(** [Sample] on a head whose backward walk is finite. *)
Lemma Sample_walk fuel s head epoch d l r :
  Empty head = false ->
  GetTipSet (reader s) head = Ok (Some d) ->
  Walk (reader s) d l r ->
  (length l < fuel)%nat ->
  Sample fuel s head epoch =
  match firstAtOrBelow epoch l, r with
  | Some T, _ => Some (Ok (seedOf (tsMinTicket T) epoch))
  | None, None => Some (Ok (seedOf (tsMinTicket (last l d)) epoch))
  | None, Some e => Some (Fail e)
  end.
Proof.
  intros Hne Hget Hw Hfuel. unfold Sample, findTipsetAtEpoch, IterAncestors.
  rewrite Hne, Hget. cbn [negb].
  rewrite (findLoop_walk _ _ _ _ Hw) by exact Hfuel.
  destruct (firstAtOrBelow epoch l) as [T |]; [reflexivity |].
  destruct r; reflexivity.
Qed.

Lemma Sample_empty_head fuel s epoch :
  Sample fuel s NewTipSetKey epoch = Some (Ok (seedOf (mkTicket []) epoch)).
Proof. reflexivity. Qed.

(** *** The sampler's properties *)

(** C1. For a non-empty head key whose chain reads back to genesis with
    strictly decreasing heights, and for every epoch, [Sample] returns
    blake2b-256 (blake2b-256 (T.MinTicket.VRFProof) || epoch as eight
    big-endian bytes), where [T] is the highest ancestor tipset of the
    head with height at most the epoch, or the genesis tipset when the
    backward walk finds none. *)
Theorem Sample_highest_ancestor fuel s head epoch d l :
  Empty head = false ->
  GetTipSet (reader s) head = Ok (Some d) ->
  Walk (reader s) d l None ->
  Descending l ->
  (length l < fuel)%nat ->
  exists T,
    In T l /\
    Sample fuel s head epoch =
      Some (Ok (Sum256 (Sum256 (VRFProof (tsMinTicket T))
                        ++ Binary.PutUint64 (Binary.uint64 epoch)))) /\
    ((tsHeight T <= epoch /\
      forall x, In x l -> tsHeight x <= epoch -> tsHeight x <= tsHeight T) \/
     ((forall x, In x l -> epoch < tsHeight x) /\
      T = last l d /\ Empty (tsParents T) = true)).
Proof.
  intros Hne Hget Hw Hdesc Hfuel.
  rewrite (Sample_walk _ _ _ _ _ _ _ Hne Hget Hw Hfuel).
  destruct (firstAtOrBelow epoch l) as [T |] eqn:Hf.
  - destruct (firstAtOrBelow_some _ _ _ Hf) as [Hin Hle].
    exists T. split; [exact Hin |]. split; [reflexivity |]. left.
    split; [exact Hle |]. exact (firstAtOrBelow_highest _ _ _ Hdesc Hf).
  - exists (last l d). split.
    + destruct (Walk_head _ _ _ _ Hw) as [l' ->].
      destruct (exists_last (l := d :: l') ltac:(discriminate)) as (l0 & z & E).
      rewrite E, last_last. apply in_or_app. right. left. reflexivity.
    + split; [reflexivity |]. right.
      split; [exact (firstAtOrBelow_none _ _ Hf) |].
      split; [reflexivity | exact (Walk_genesis_last _ _ _ Hw)].
Qed.


(** Epochs at or beyond the head's height resolve to the head tipset. *)
Lemma ResolvesTo_head fuel s head epoch d :
  Empty head = false ->
  GetTipSet (reader s) head = Ok (Some d) ->
  tsHeight d <= epoch ->
  ResolvesTo (S fuel) s head epoch d.
Proof.
  intros Hne Hget Hle. split; [exact Hne |]. exists (Some d).
  split; [exact Hget |]. unfold findTipsetAtEpoch, IterAncestors.
  cbn [findLoop Complete Defined value negb Value Height].
  destruct (Z.leb_spec (tsHeight d) epoch); [reflexivity | lia].
Qed.


(** C6. With the empty head key [Sample] hashes an empty VRF proof,
    whatever the epoch; on a chain whose heights decrease down to a
    genesis tipset of non-negative height, epoch 0 and every negative
    epoch resolve to the genesis tipset's ticket. In both cases the
    requested epoch is mixed in. *)
Theorem Sample_genesis fuel s epoch :
  Sample fuel s NewTipSetKey epoch
    = Some (Ok (Sum256 (Sum256 [] ++ Binary.PutUint64 (Binary.uint64 epoch)))) /\
  forall head d l,
    Empty head = false ->
    GetTipSet (reader s) head = Ok (Some d) ->
    Walk (reader s) d l None ->
    Descending l ->
    0 <= tsHeight (last l d) ->
    epoch <= 0 ->
    (length l < fuel)%nat ->
    Empty (tsParents (last l d)) = true /\
    Sample fuel s head epoch =
      Some (Ok (Sum256 (Sum256 (VRFProof (tsMinTicket (last l d)))
                        ++ Binary.PutUint64 (Binary.uint64 epoch)))).
Proof.
  split; [reflexivity |].
  intros head d l Hne Hget Hw Hdesc Hgen Hep Hfuel.
  split; [exact (Walk_genesis_last _ _ _ Hw) |].
  rewrite (Sample_walk _ _ _ _ _ _ _ Hne Hget Hw Hfuel).
  destruct (firstAtOrBelow epoch l) as [T |] eqn:Hf; [| reflexivity].
  destruct (firstAtOrBelow_some _ _ _ Hf) as [Hin Hle].
  pose proof (Descending_last_lowest l d Hdesc T Hin) as Hlow.
  assert (HT : tsHeight T = tsHeight (last l d)) by lia.
  (* the only tipset at the genesis height is genesis itself *)
  assert (T = last l d) as ->; [| reflexivity].
  clear - Hdesc Hin HT. unfold Descending in Hdesc.
  induction l as [| a l IH]; [contradiction |].
  apply StronglySorted_inv in Hdesc. destruct Hdesc as [Hs Hall].
  destruct l as [| b l'].
  - destruct Hin as [<- | []]. reflexivity.
  - change (last (a :: b :: l') d) with (last (b :: l') d) in *.
    destruct Hin as [<- | Hin]; [| apply IH; assumption].
    rewrite Forall_forall in Hall.
    assert (Hl : In (last (b :: l') d) (b :: l')).
    { rewrite (last_default_irrelevant (b :: l') d b) by discriminate.
      destruct (exists_last (l := b :: l') ltac:(discriminate)) as (l0 & z & E).
      rewrite E, last_last. apply in_or_app. right. left. reflexivity. }
    specialize (Hall _ Hl). lia.
Qed.

(** C7. On a well-formed store [Sample] always returns, and it returns
    an error exactly when a chain read fails while the head is resolved
    or the ancestors are traversed; the error is the read's own. In
    every other case, for an empty or a resolvable head key and for
    every epoch, it returns a seed. *)
Theorem Sample_error_iff_read_failure s head epoch :
  WellFormed (reader s) ->
  exists fuel0, forall fuel, (fuel0 <= fuel)%nat ->
    exists res,
      Sample fuel s head epoch = Some res /\
      (forall e, res = Fail e <-> ReadFailure s head epoch e) /\
      (isOk res = true <-> forall e, ~ ReadFailure s head epoch e).
Proof.
  intros Hwf. unfold ReadFailure.
  destruct (Empty head) eqn:Hne.
  { exists O. intros fuel _. destruct head; [| discriminate].
    eexists. split; [apply Sample_empty_head |].
    split; [intros e | cbn]; split; try discriminate;
      try (intros [? _]; discriminate); auto.
    intros _ e [? _]. discriminate. }
  destruct (GetTipSet (reader s) head) as [ts | e0] eqn:Hget.
  2:{ exists O. intros fuel _. exists (Fail e0).
      split; [unfold Sample; rewrite Hne, Hget; reflexivity |].
      split; [intros e | cbn]; split.
      - intros [= <-]. auto.
      - intros [_ [[= ->] | (d & l & [=] & _)]]. reflexivity.
      - discriminate.
      - intros H. exfalso. apply (H e0). auto. }
  destruct (Hwf _ _ Hget) as (d & l & r & -> & Hw).
  exists (S (length l)). intros fuel Hfuel.
  rewrite (Sample_walk fuel s head epoch d l r Hne Hget Hw) by lia.
  assert (Huniq : forall d' l' e,
             Ok (E := Error) (Some d) = Ok (Some d') ->
             Walk (reader s) d' l' (Some e) -> l' = l /\ r = Some e).
  { intros d' l' e [= <-] Hw'.
    destruct (Walk_deterministic _ _ _ _ Hw _ _ Hw') as [-> ->]. auto. }
  destruct (firstAtOrBelow epoch l) as [T |] eqn:Hf.
  - eexists. split; [reflexivity |].
    assert (Hno : forall e, ~ (false = false /\
              (Ok (E := Error) (Some d) = Fail e \/
               exists d' l',
                 Ok (E := Error) (Some d) = Ok (Some d') /\
                 Walk (reader s) d' l' (Some e) /\
                 Forall (fun x => epoch < tsHeight x) l'))).
    { intros e [_ [[=] | (d' & l' & Hd & Hw' & Hall)]].
      destruct (Huniq _ _ _ Hd Hw') as [-> _].
      rewrite Forall_forall in Hall.
      rewrite (firstAtOrBelow_all_above _ _ Hall) in Hf. discriminate. }
    split; [intros e; split; [discriminate | intros H; destruct (Hno e H)] |].
    cbn. split; auto.
  - destruct r as [e0 |].
    + exists (Fail e0). split; [reflexivity |].
      assert (Hyes : false = false /\
              (Ok (E := Error) (Some d) = Fail e0 \/
               exists d' l',
                 Ok (E := Error) (Some d) = Ok (Some d') /\
                 Walk (reader s) d' l' (Some e0) /\
                 Forall (fun x => epoch < tsHeight x) l')).
      { split; [reflexivity |]. right. exists d, l.
        split; [reflexivity |]. split; [exact Hw |].
        rewrite Forall_forall. exact (firstAtOrBelow_none _ _ Hf). }
      split; [intros e; split |].
      * intros [= <-]. exact Hyes.
      * intros [_ [[=] | (d' & l' & Hd & Hw' & _)]].
        destruct (Huniq _ _ _ Hd Hw') as [_ [= ->]]. reflexivity.
      * cbn. split; [discriminate |]. intros H. destruct (H e0 Hyes).
    + eexists. split; [reflexivity |].
      assert (Hno : forall e, ~ (false = false /\
              (Ok (E := Error) (Some d) = Fail e \/
               exists d' l',
                 Ok (E := Error) (Some d) = Ok (Some d') /\
                 Walk (reader s) d' l' (Some e) /\
                 Forall (fun x => epoch < tsHeight x) l'))).
      { intros e [_ [[=] | (d' & l' & Hd & Hw' & _)]].
        destruct (Huniq _ _ _ Hd Hw') as [_ [=]]. }
      split; [intros e; split; [discriminate | intros H; destruct (Hno e H)] |].
      cbn. split; auto.
Qed.

(** *** Further properties of the sampler *)

Lemma last_In {A} (l : list A) (d : A) : l <> [] -> In (last l d) l.
Proof.
  intros Hne. destruct (exists_last Hne) as (l0 & z & ->).
  rewrite last_last. apply in_or_app. right. left. reflexivity.
Qed.

(** What [findTipsetAtEpoch] returns on a finite backward walk. *)
Lemma findTipsetAtEpoch_walk fuel s d l r epoch :
  Walk (reader s) d l r ->
  (length l < fuel)%nat ->
  findTipsetAtEpoch fuel s (Some d) epoch =
  Some (match firstAtOrBelow epoch l with
        | Some T => (Some T, None)
        | None => (Some (last l d), r)
        end).
Proof.
  intros Hw Hfuel. unfold findTipsetAtEpoch, IterAncestors.
  apply (findLoop_walk _ _ _ _ Hw). exact Hfuel.
Qed.

(** X6. An epoch at or beyond the height of the head tipset is not an
    error: [Sample] uses the head's own ticket and reads nothing but the
    head, so it succeeds whatever the store holds below it. *)
Theorem Sample_at_or_beyond_head fuel s head epoch d :
  Empty head = false ->
  GetTipSet (reader s) head = Ok (Some d) ->
  tsHeight d <= epoch ->
  Sample (S fuel) s head epoch = Some (Ok (seedOf (tsMinTicket d) epoch)).
Proof.
  intros Hne Hget Hle. unfold Sample, findTipsetAtEpoch, IterAncestors.
  rewrite Hne, Hget.
  cbn [negb findLoop Complete Defined value Value Height].
  destruct (Z.leb_spec (tsHeight d) epoch); [reflexivity | lia].
Qed.

Lemma Sample_gap fuel s head epoch d p :
  Empty head = false ->
  GetTipSet (reader s) head = Ok (Some d) ->
  Empty (tsParents d) = false ->
  GetTipSet (reader s) (tsParents d) = Ok (Some p) ->
  tsHeight p <= epoch < tsHeight d ->
  Sample (S (S fuel)) s head epoch = Some (Ok (seedOf (tsMinTicket p) epoch)).
Proof.
  intros Hne Hget Hp Hgp [Hlo Hhi]. unfold Sample, findTipsetAtEpoch, IterAncestors.
  rewrite Hne, Hget.
  cbn [negb findLoop Complete Defined value Value Height].
  destruct (Z.leb_spec (tsHeight d) epoch); [lia |].
  unfold Next. cbn [Parents value store]. rewrite Hp, Hgp.
  cbn [Complete Defined value negb Value Height].
  destruct (Z.leb_spec (tsHeight p) epoch); [reflexivity | lia].
Qed.

(** X7. An epoch in a run of null blocks, below the head and at or above
    the head's parent, takes the parent's ticket: [Sample] falls back to
    the last tipset before the gap, and reads nothing below it. *)
Theorem Sample_in_null_gap fuel s head epoch d p :
  Empty head = false ->
  GetTipSet (reader s) head = Ok (Some d) ->
  Empty (tsParents d) = false ->
  GetTipSet (reader s) (tsParents d) = Ok (Some p) ->
  tsHeight p <= epoch < tsHeight d ->
  Sample (S (S fuel)) s head epoch = Some (Ok (seedOf (tsMinTicket p) epoch)).
Proof. exact (Sample_gap fuel s head epoch d p). Qed.

(** X8. When the store answers the head key with the undefined tipset and
    no error, the walk has nothing to visit and [Sample] fails with the
    tipset's own error when it asks for the minimum ticket. *)
Theorem Sample_undefined_head_tipset fuel s head epoch :
  Empty head = false ->
  GetTipSet (reader s) head = Ok UndefTipSet ->
  Sample (S fuel) s head epoch = Some (Fail errUndefTipSet).
Proof.
  intros Hne Hget. unfold Sample, findTipsetAtEpoch, IterAncestors.
  rewrite Hne, Hget. reflexivity.
Qed.

(** X9. The walk is lazy: if some tipset of the chain is at or below the
    epoch, [Sample] succeeds with the first such tipset even when the chain
    is broken further down. *)
Theorem Sample_ignores_break_below fuel s head epoch d l e :
  Empty head = false ->
  GetTipSet (reader s) head = Ok (Some d) ->
  Walk (reader s) d l (Some e) ->
  Exists (fun x => tsHeight x <= epoch) l ->
  (length l < fuel)%nat ->
  exists T,
    In T l /\ tsHeight T <= epoch /\
    Sample fuel s head epoch = Some (Ok (seedOf (tsMinTicket T) epoch)).
Proof.
  intros Hne Hget Hw Hex Hfuel.
  rewrite (Sample_walk _ _ _ _ _ _ _ Hne Hget Hw Hfuel).
  destruct (firstAtOrBelow epoch l) as [T |] eqn:Hf.
  - destruct (firstAtOrBelow_some _ _ _ Hf) as [Hin Hle].
    exists T. auto.
  - apply Exists_exists in Hex. destruct Hex as (x & Hin & Hx).
    pose proof (firstAtOrBelow_none _ _ Hf x Hin). lia.
Qed.

(** X10. Later epochs never resolve to lower tipsets: on a chain with
    strictly decreasing heights, if [Sample] resolves [e1] to [T1] and
    [e2] to [T2] under the same head and [e1 <= e2], then [T1] is not
    higher than [T2]. *)
Theorem ResolvesTo_monotone fuel s head e1 e2 d l r T1 T2 :
  GetTipSet (reader s) head = Ok (Some d) ->
  Walk (reader s) d l r ->
  Descending l ->
  (length l < fuel)%nat ->
  e1 <= e2 ->
  ResolvesTo fuel s head e1 T1 ->
  ResolvesTo fuel s head e2 T2 ->
  tsHeight T1 <= tsHeight T2.
Proof.
  intros Hget Hw Hdesc Hfuel Hle (_ & st1 & Hg1 & Hf1) (_ & st2 & Hg2 & Hf2).
  rewrite Hget in Hg1, Hg2. injection Hg1 as <-. injection Hg2 as <-.
  rewrite (findTipsetAtEpoch_walk _ _ _ _ _ e1 Hw Hfuel) in Hf1.
  rewrite (findTipsetAtEpoch_walk _ _ _ _ _ e2 Hw Hfuel) in Hf2.
  pose proof (Walk_nonempty _ _ _ _ Hw) as Hne.
  destruct (firstAtOrBelow e1 l) as [A |] eqn:HA;
    destruct (firstAtOrBelow e2 l) as [B |] eqn:HB;
    injection Hf1 as E1; injection Hf2 as E2; try injection E1 as ->;
    try injection E2 as ->; subst.
  - destruct (firstAtOrBelow_some _ _ _ HA) as [Hin HleA].
    apply (firstAtOrBelow_highest _ _ _ Hdesc HB _ Hin). lia.
  - destruct (firstAtOrBelow_some _ _ _ HA) as [Hin HleA].
    pose proof (firstAtOrBelow_none _ _ HB _ Hin). lia.
  - destruct (firstAtOrBelow_some _ _ _ HB) as [Hin _].
    apply (Descending_last_lowest _ _ Hdesc _ Hin).
  - lia.
Qed.

(** *** The sampler's test

    [TestSamplingChainRandomness] builds a chain without null blocks with
    [makeChain] and compares [Sample] with [makeSample]. *)

(** [strconv.Itoa], from Go's library. *)
Variable Itoa : Z -> list byte.

(** The test's [makeSample]: the seed expected for the requested epoch
    [targetEpoch] when the ticket is the one of height [sampleEpoch], or
    the empty proof for a negative [sampleEpoch]. *)
Definition makeSample (targetEpoch sampleEpoch : Z) : RandomSeed :=
  let buf : list byte := [] in
  let vrfProof := if sampleEpoch >=? 0 then Itoa sampleEpoch else [] in
  let vrfDigest := Sum256 vrfProof in
  let buf := buf ++ vrfDigest in
  let buf := Binary.Write buf targetEpoch in
  let bufHash := Sum256 buf in
  bufHash.

(** The tipset of height [h] in a chain as [makeChain] builds it: one on
    top of the other from height 0, each ticket the stringified height. *)
Definition chainTip (key : Z -> TipSetKey) (h : Z) : TipSetData :=
  {| tsKey := key h;
     tsHeight := h;
     tsParents := if h =? 0 then NewTipSetKey else key (h - 1);
     tsMinTicket := {| VRFProof := Itoa h |} |}.

(** The store holds such a chain of [length] tipsets under the keys [key]. *)
Definition MadeChain (rd : TipSetProvider) (key : Z -> TipSetKey) (length : nat) : Prop :=
  forall h, 0 <= h < Z.of_nat length ->
    Empty (key h) = false /\ GetTipSet rd (key h) = Ok (Some (chainTip key h)).

Fixpoint tipsFrom (key : Z -> TipSetKey) (m : nat) : list TipSetData :=
  match m with
  | O => [chainTip key 0]
  | S m' => chainTip key (Z.of_nat m) :: tipsFrom key m'
  end.

Lemma tipsFrom_length key m : length (tipsFrom key m) = S m.
Proof. induction m; cbn [tipsFrom length]; congruence. Qed.

Lemma tipsFrom_last key m d : last (tipsFrom key m) d = chainTip key 0.
Proof.
  induction m as [| m IH]; [reflexivity |].
  cbn [tipsFrom]. destruct (tipsFrom key m) eqn:E.
  - destruct m; discriminate.
  - change (last (t :: l) d = chainTip key 0). exact IH.
Qed.

Lemma tipsFrom_walk rd key len m :
  MadeChain rd key len -> (m < len)%nat ->
  Walk rd (chainTip key (Z.of_nat m)) (tipsFrom key m) None.
Proof.
  intros Hmade. induction m as [| m IH]; intros Hm.
  - apply walk_genesis. reflexivity.
  - cbn [tipsFrom].
    assert (Hpar : tsParents (chainTip key (Z.of_nat (S m))) = key (Z.of_nat m)).
    { cbn [chainTip tsParents].
      destruct (Z.eqb_spec (Z.of_nat (S m)) 0); [lia |]. f_equal. lia. }
    destruct (Hmade (Z.of_nat m) ltac:(lia)) as [Hne Hget].
    eapply walk_step.
    + rewrite Hpar. exact Hne.
    + rewrite Hpar. exact Hget.
    + apply IH. lia.
Qed.

Lemma tipsFrom_first key m epoch :
  firstAtOrBelow epoch (tipsFrom key m) =
  if 0 <=? epoch then Some (chainTip key (Z.min epoch (Z.of_nat m))) else None.
Proof.
  unfold firstAtOrBelow. induction m as [| m IH]; cbn [tipsFrom find chainTip tsHeight].
  - destruct (Z.leb_spec 0 epoch); [| reflexivity].
    rewrite Z.min_r by lia. reflexivity.
  - destruct (Z.leb_spec (Z.of_nat (S m)) epoch).
    + destruct (Z.leb_spec 0 epoch); [| lia]. rewrite Z.min_r by lia. reflexivity.
    + rewrite IH. destruct (Z.leb_spec 0 epoch); [| reflexivity].
      f_equal. f_equal. lia.
Qed.

(** X11. What the sampler's test asserts on its chains holds for every
    chain built that way, every head in it and every epoch: [Sample] under
    the head of height [m] equals [makeSample] of the requested epoch and
    of the epoch itself when it lies in the chain, of [m] when the epoch is
    beyond the head, and of 0 when it is negative. With the empty key it
    equals [makeSample] of the epoch and -1. *)
Theorem Sample_matches_makeSample fuel s key len m epoch :
  MadeChain (reader s) key len ->
  (m < len)%nat ->
  (S m < fuel)%nat ->
  Sample fuel s (key (Z.of_nat m)) epoch
    = Some (Ok (makeSample epoch (Z.max 0 (Z.min epoch (Z.of_nat m))))) /\
  Sample fuel s NewTipSetKey epoch = Some (Ok (makeSample epoch (-1))).
Proof.
  intros Hmade Hm Hfuel. split; [| reflexivity].
  destruct (Hmade (Z.of_nat m) ltac:(lia)) as [Hne Hget].
  rewrite (Sample_walk fuel s _ epoch _ _ None Hne Hget
             (tipsFrom_walk _ _ _ _ Hmade Hm))
    by (rewrite tipsFrom_length; exact Hfuel).
  rewrite tipsFrom_first, tipsFrom_last. unfold makeSample, seedOf, Binary.Write.
  destruct (Z.leb_spec 0 epoch).
  - rewrite Z.max_r by lia.
    destruct (Z.geb_spec (Z.min epoch (Z.of_nat m)) 0); [reflexivity | lia].
  - rewrite Z.max_l by lia. reflexivity.
Qed.

(** X12. The test's head after null blocks: a tipset built on top of such
    a chain at a greater height. For every epoch from the top of the chain
    up to, but not including, the new head's height, [Sample] under the new
    head equals [makeSample] of the epoch and of the old top. *)
Theorem Sample_after_nulls_matches_makeSample fuel s key top headAfterNulls d epoch :
  MadeChain (reader s) key (S top) ->
  Empty headAfterNulls = false ->
  GetTipSet (reader s) headAfterNulls = Ok (Some d) ->
  tsParents d = key (Z.of_nat top) ->
  Z.of_nat top <= epoch < tsHeight d ->
  Sample (S (S fuel)) s headAfterNulls epoch
  = Some (Ok (makeSample epoch (Z.of_nat top))).
Proof.
  intros Hmade Hne Hget Hpar Hep.
  destruct (Hmade (Z.of_nat top) ltac:(lia)) as [Hk Hgk].
  rewrite (Sample_gap fuel s headAfterNulls epoch d (chainTip key (Z.of_nat top)));
    try assumption.
  - unfold makeSample, seedOf, Binary.Write. cbn [chainTip tsMinTicket VRFProof].
    destruct (Z.geb_spec (Z.of_nat top) 0); [reflexivity | lia].
  - rewrite Hpar. exact Hk.
  - rewrite Hpar. exact Hgk.
Qed.

End Sampler.

Arguments mkTipSet {Cid} _ _ _ _.
Arguments mkProvider {Cid Error} _.
Arguments mkSampler {Cid Error} _.
Arguments NewSampler {Cid Error} _.

(** *** A small chain

    Single-block tipsets at heights 0 to 3, each ticket the height as a
    decimal digit, and a head at height 7 built on height 3 (epochs 4 to 6
    are null). A further tipset at height 9 names a parent the store does
    not hold. Block identifiers are numbers, errors are messages, and the
    digest is the identity, which has no collisions. *)
Module Example.

Import Strings.String.

Definition Error := string.

Definition errUndefTipSet : Error := "undefined tipset"%string.

Definition errNotFound : Error := "not in tipset index"%string.

Definition plainDigest (b : list byte) : list byte := b.

Definition t0 : TipSetData nat := mkTipSet [0%nat] 0 [] (mkTicket [x30]).
Definition t1 : TipSetData nat := mkTipSet [1%nat] 1 [0%nat] (mkTicket [x31]).
Definition t2 : TipSetData nat := mkTipSet [2%nat] 2 [1%nat] (mkTicket [x32]).
Definition t3 : TipSetData nat := mkTipSet [3%nat] 3 [2%nat] (mkTicket [x33]).
Definition t7 : TipSetData nat := mkTipSet [7%nat] 7 [3%nat] (mkTicket [x37]).
Definition t9 : TipSetData nat := mkTipSet [9%nat] 9 [8%nat] (mkTicket [x39]).

Definition lookup (k : TipSetKey nat) : result Error (TipSet nat) :=
  match k with
  | [0%nat] => Ok (Some t0)
  | [1%nat] => Ok (Some t1)
  | [2%nat] => Ok (Some t2)
  | [3%nat] => Ok (Some t3)
  | [7%nat] => Ok (Some t7)
  | [9%nat] => Ok (Some t9)
  | _ => Fail errNotFound
  end.

Definition chainStore : TipSetProvider nat Error := mkProvider lookup.

Definition chainSampler : Sampler nat Error := NewSampler chainStore.

Definition sample : nat -> Sampler nat Error -> TipSetKey nat -> Z
                    -> option (result Error RandomSeed) :=
  Sample nat Error errUndefTipSet plainDigest.

Definition chain7 : list (TipSetData nat) := [t7; t3; t2; t1; t0].

Lemma walk_t0 : Walk nat Error chainStore t0 [t0] None.
Proof. apply walk_genesis. reflexivity. Qed.

Lemma walk_t7 : Walk nat Error chainStore t7 chain7 None.
Proof.
  unfold chain7.
  repeat (eapply walk_step; [reflexivity | reflexivity |]).
  apply walk_t0.
Qed.

Lemma walk_t9 : Walk nat Error chainStore t9 [t9] (Some errNotFound).
Proof. apply walk_fail; reflexivity. Qed.

Lemma descending_chain7 : Descending nat chain7.
Proof.
  unfold Descending, chain7.
  repeat (apply SSorted_cons; [| repeat (apply Forall_cons; [cbn; lia |]); apply Forall_nil]).
  apply SSorted_nil.
Qed.


(** The seeds of the sampler's test on this chain: the head itself, an
    epoch beyond the head, an epoch inside the null gap, genesis, an
    epoch before genesis, and the empty chain. *)
Example sample_head :
  sample 10 chainSampler [7%nat] 7
  = Some (Ok [x37; x00; x00; x00; x00; x00; x00; x00; x07]).
Proof. reflexivity. Qed.

Example sample_beyond_head :
  sample 10 chainSampler [7%nat] 8
  = Some (Ok [x37; x00; x00; x00; x00; x00; x00; x00; x08]).
Proof. reflexivity. Qed.

Example sample_in_gap :
  sample 10 chainSampler [7%nat] 5
  = Some (Ok [x33; x00; x00; x00; x00; x00; x00; x00; x05]).
Proof. reflexivity. Qed.

Example sample_before_genesis :
  sample 10 chainSampler [7%nat] (-1)
  = Some (Ok [x30; xff; xff; xff; xff; xff; xff; xff; xff]).
Proof. reflexivity. Qed.

Example sample_empty_chain :
  sample 10 chainSampler [] (-1)
  = Some (Ok [xff; xff; xff; xff; xff; xff; xff; xff]).
Proof. reflexivity. Qed.

Example sample_broken_chain :
  sample 10 chainSampler [9%nat] 5 = Some (Fail errNotFound).
Proof. reflexivity. Qed.

Lemma wellFormed_chainStore : WellFormed nat Error chainStore.
Proof.
  intros k ts H. cbn in H. unfold lookup in H.
  repeat match type of H with
         | match ?x with _ => _ end = _ => destruct x; try discriminate H
         end;
    injection H as <-;
    eexists _, _, _; (split; [reflexivity |]);
    repeat first [ apply walk_genesis; reflexivity
                 | apply walk_fail; reflexivity
                 | eapply walk_step; [reflexivity | reflexivity |] ].
Qed.

(** C1 on the small chain: epoch 5 lies in the null gap under the head at
    height 7 and resolves to the tipset at height 3. *)
Lemma Sample_highest_ancestor_witness :
  exists T,
    In T chain7 /\
    sample 10 chainSampler [7%nat] 5 =
      Some (Ok (plainDigest (plainDigest (VRFProof (tsMinTicket nat T))
                             ++ Binary.PutUint64 (Binary.uint64 5)))) /\
    ((tsHeight nat T <= 5 /\
      forall x, In x chain7 -> tsHeight nat x <= 5 -> tsHeight nat x <= tsHeight nat T) \/
     ((forall x, In x chain7 -> 5 < tsHeight nat x) /\
      T = last chain7 t7 /\ Empty nat (tsParents nat T) = true)).
Proof.
  apply (Sample_highest_ancestor nat Error errUndefTipSet plainDigest
           10 chainSampler [7%nat] 5 t7 chain7).
  - reflexivity.
  - reflexivity.
  - exact walk_t7.
  - exact descending_chain7.
  - cbn. lia.
Defined.


(** C6 on the small chain: the empty head key, and epoch -1 under the
    head at height 7, which resolves to genesis. *)
Lemma Sample_genesis_witness :
  sample 10 chainSampler [] (-1)
    = Some (Ok (plainDigest (plainDigest []
                             ++ Binary.PutUint64 (Binary.uint64 (-1))))) /\
  Empty nat (tsParents nat (last chain7 t7)) = true /\
  sample 10 chainSampler [7%nat] (-1)
    = Some (Ok (plainDigest (plainDigest (VRFProof (tsMinTicket nat t0))
                             ++ Binary.PutUint64 (Binary.uint64 (-1))))).
Proof.
  destruct (Sample_genesis nat Error errUndefTipSet plainDigest
              10 chainSampler (-1)) as [Hempty Hchain].
  split; [exact Hempty |].
  apply (Hchain [7%nat] t7 chain7).
  - reflexivity.
  - reflexivity.
  - exact walk_t7.
  - exact descending_chain7.
  - cbn. lia.
  - lia.
  - cbn. lia.
Defined.

(** C7 on the small chain: sampling epoch 5 under the broken head at
    height 9 fails with the store's error, and with nothing else. *)
Lemma Sample_error_iff_read_failure_witness :
  exists fuel0, forall fuel, (fuel0 <= fuel)%nat ->
    exists res,
      sample fuel chainSampler [9%nat] 5 = Some res /\
      (forall e, res = Fail e <->
                 ReadFailure nat Error chainSampler [9%nat] 5 e) /\
      (isOk res = true <->
       forall e, ~ ReadFailure nat Error chainSampler [9%nat] 5 e).
Proof.
  apply (Sample_error_iff_read_failure nat Error errUndefTipSet plainDigest
           chainSampler [9%nat] 5).
  exact wellFormed_chainStore.
Defined.

(** X6 on the small chain: epoch 12 under the broken head at height 9. *)
Lemma Sample_at_or_beyond_head_witness :
  sample 1 chainSampler [9%nat] 12
  = Some (Ok (seedOf plainDigest (tsMinTicket nat t9) 12)).
Proof.
  apply (Sample_at_or_beyond_head nat Error errUndefTipSet plainDigest
           0 chainSampler [9%nat] 12 t9).
  - reflexivity.
  - reflexivity.
  - cbn. lia.
Defined.

(** X7 on the small chain: epoch 5 in the gap under the head at height 7. *)
Lemma Sample_in_null_gap_witness :
  sample 2 chainSampler [7%nat] 5
  = Some (Ok (seedOf plainDigest (tsMinTicket nat t3) 5)).
Proof.
  apply (Sample_in_null_gap nat Error errUndefTipSet plainDigest
           0 chainSampler [7%nat] 5 t7 t3).
  - reflexivity.
  - reflexivity.
  - reflexivity.
  - reflexivity.
  - cbn. lia.
Defined.

(** A store that answers every key with the undefined tipset. *)
Definition hollowStore : TipSetProvider nat Error :=
  mkProvider (fun _ => Ok (UndefTipSet nat)).

(** X8 on the hollow store. *)
Lemma Sample_undefined_head_tipset_witness :
  sample 1 (NewSampler hollowStore) [7%nat] 5 = Some (Fail errUndefTipSet).
Proof.
  apply (Sample_undefined_head_tipset nat Error errUndefTipSet plainDigest
           0 (NewSampler hollowStore) [7%nat] 5).
  - reflexivity.
  - reflexivity.
Defined.

(** X9 on the small chain: the head at height 9 has no parent in the
    store, and epoch 9 is served all the same. *)
Lemma Sample_ignores_break_below_witness :
  exists T,
    In T [t9] /\ tsHeight nat T <= 9 /\
    sample 10 chainSampler [9%nat] 9
    = Some (Ok (seedOf plainDigest (tsMinTicket nat T) 9)).
Proof.
  apply (Sample_ignores_break_below nat Error errUndefTipSet plainDigest
           10 chainSampler [9%nat] 9 t9 [t9] errNotFound).
  - reflexivity.
  - reflexivity.
  - exact walk_t9.
  - left. cbn. lia.
  - cbn. lia.
Defined.

(** X10 on the small chain: epochs 2 and 5 under the head at height 7. *)
Lemma ResolvesTo_monotone_witness : tsHeight nat t2 <= tsHeight nat t3.
Proof.
  apply (ResolvesTo_monotone nat Error errUndefTipSet
           10 chainSampler [7%nat] 2 5 t7 chain7 None t2 t3).
  - reflexivity.
  - exact walk_t7.
  - exact descending_chain7.
  - cbn. lia.
  - lia.
  - split; [reflexivity |]. exists (Some t7). split; reflexivity.
  - split; [reflexivity |]. exists (Some t7). split; reflexivity.
Defined.

(** A chain as the test builds it, of six tipsets: the key of height [h]
    is the number [h + 1], and heights are written with one digit. *)
Definition digit (h : Z) : list byte := [Binary.byteOf (48 + h)].

Definition madeKey (h : Z) : TipSetKey nat := [S (Z.to_nat h)].

Definition madeLookup (k : TipSetKey nat) : result Error (TipSet nat) :=
  match k with
  | [S n] =>
      if (n <? 6)%nat
      then Ok (Some (chainTip nat digit madeKey (Z.of_nat n)))
      else Fail errNotFound
  | _ => Fail errNotFound
  end.

Definition madeStore : TipSetProvider nat Error := mkProvider madeLookup.

Lemma madeStore_made : MadeChain nat Error digit madeStore madeKey 6.
Proof.
  intros h Hh. split; [reflexivity |].
  cbn [GetTipSet madeStore madeLookup madeKey].
  destruct (Nat.ltb_spec (Z.to_nat h) 6); [| lia].
  rewrite Z2Nat.id by lia. reflexivity.
Qed.

(** X11 on that chain: the head parent at height 4, sampled at epochs 7,
    3 and -1, and the empty key. *)
Lemma Sample_matches_makeSample_witness :
  sample 10 (NewSampler madeStore) (madeKey 4) 7
    = Some (Ok (makeSample plainDigest digit 7 4)) /\
  sample 10 (NewSampler madeStore) (madeKey 4) 3
    = Some (Ok (makeSample plainDigest digit 3 3)) /\
  sample 10 (NewSampler madeStore) (madeKey 4) (-1)
    = Some (Ok (makeSample plainDigest digit (-1) 0)) /\
  sample 10 (NewSampler madeStore) [] (-1)
    = Some (Ok (makeSample plainDigest digit (-1) (-1))).
Proof.
  pose proof (fun epoch =>
                Sample_matches_makeSample nat Error errUndefTipSet plainDigest digit
                  10 (NewSampler madeStore) madeKey 6 4 epoch madeStore_made
                  ltac:(lia) ltac:(lia)) as H.
  split; [exact (proj1 (H 7)) |].
  split; [exact (proj1 (H 3)) |].
  split; [exact (proj1 (H (-1))) | exact (proj2 (H (-1)))].
Defined.


(** The made chain with a head at height 9 on top of it, as
    [BuildOneOn] with [IncHeight] makes one; its key has two blocks. *)
Definition afterNulls : TipSetData nat :=
  mkTipSet [0%nat; 0%nat] 9 (madeKey 5) (mkTicket (digit 9)).

Definition nullsStore : TipSetProvider nat Error :=
  mkProvider (fun k =>
                match k with
                | [_; _] => Ok (Some afterNulls)
                | _ => madeLookup k
                end).

Lemma nullsStore_made : MadeChain nat Error digit nullsStore madeKey 6.
Proof.
  intros h Hh. split; [reflexivity |].
  exact (proj2 (madeStore_made h Hh)).
Qed.

(** X12 on that chain: epoch 8 lies in the null blocks under the new head. *)
Lemma Sample_after_nulls_matches_makeSample_witness :
  sample 2 (NewSampler nullsStore) [0%nat; 0%nat] 8
  = Some (Ok (makeSample plainDigest digit 8 5)).
Proof.
  apply (Sample_after_nulls_matches_makeSample nat Error errUndefTipSet plainDigest
           digit 0 (NewSampler nullsStore) madeKey 5 [0%nat; 0%nat] afterNulls 8).
  - exact nullsStore_made.
  - reflexivity.
  - reflexivity.
  - reflexivity.
  - cbn. lia.
Defined.


End Example.

End Chain.

(** ** mining: the election worker *)

Module Mining.

Section Worker.

(** Types of the collaborating packages. *)
Variable Cid : Type.
Variable Error : Type.
Variable Address : Type.
Variable Signer : Type.
Variable Block : Type.
Variable Candidate : Type.
Variable EPoStInfo : Type.
Variable SortedPublicSectorInfo : Type.
Variable PoStGenerator : Type.
Variable StateView : Type. (* consensus.PowerStateView *)
Variable PowerTableView : Type.
Variable Hasher : Type.

Variable errUndefTipSet : Error.

(** [errors.New("bad input tipset with no blocks sent to Mine()")]. *)
Variable errBadInputTipset : Error.

Abbreviation TipSetKey := (Chain.TipSetKey Cid).
Abbreviation TipSet := (Chain.TipSet Cid).
Abbreviation Ticket := Chain.Ticket.
Abbreviation Defined := (Chain.Defined Cid).
Abbreviation Key := (Chain.Key Cid).
Abbreviation Height := (Chain.Height Cid Error errUndefTipSet).
Abbreviation MinTicket := (Chain.MinTicket Cid Error errUndefTipSet).

(** Functions of other packages that [Mine] calls:
    the accessors of [ffi.Candidate], [consensus.PowerStateView] and
    [consensus.PowerTableView], [sampling.SampleNthTicket],
    [miner.ElectionLookback], [big.Int.Uint64], the [hasher] utility,
    [block.NewEPoStInfo] applied to [block.FromFFICandidates], and the
    worker's own [Generate], which assembles the block. *)
Variable PartialTicket : Candidate -> list byte.
Variable MinerControlAddresses :
  StateView -> Address -> result Error (Address * Address).
Variable NewPowerTableView : StateView -> PowerTableView.
Variable SortedSectorInfos :
  PowerTableView -> Address -> result Error SortedPublicSectorInfo.
Variable NumSectors : PowerTableView -> Address -> result Error Z.
Variable Total : PowerTableView -> result Error Z.
Variable SectorSize : PowerTableView -> Address -> result Error Z.
Variable SampleNthTicket : Z -> list TipSet -> result Error Ticket.
Variable ElectionLookback : Z.
Variable Uint64 : Z -> Z.
Variable NewEPoStInfo : list byte -> list byte -> list Candidate -> EPoStInfo.
Variable Generate :
  TipSet -> Ticket -> Z -> EPoStInfo -> option Block * option Error.

(** The hasher is one mutable object: [Bytes] writes to it and [Hash]
    reads a digest off it, each leaving it in some state. *)
Variable NewHasher : Hasher.
Variable HasherBytes : Hasher -> list byte -> Hasher.
Variable HasherHash : Hasher -> list byte * Hasher.

(** *** Interfaces and the worker *)

Record workerPorcelainAPI := mkAPI {
  PowerStateView : TipSetKey -> result Error StateView
}.

Record electionUtil := mkElection {
  GeneratePoStRandomness :
    Ticket -> Address -> Signer -> Z -> result Error (list byte);
  GenerateCandidates :
    list byte -> SortedPublicSectorInfo -> PoStGenerator
    -> result Error (list Candidate);
  GeneratePoSt :
    SortedPublicSectorInfo -> list byte -> list Candidate -> PoStGenerator
    -> result Error (list byte);
  CandidateWins : list byte -> Z -> Z -> Z -> Z -> bool
}.

Record ticketGenerator := mkTicketGen {
  NextTicket : Ticket -> Address -> Signer -> result Error Ticket
}.

Definition GetAncestors := TipSet -> Z -> result Error (list TipSet).

Record DefaultWorker := mkWorker {
  api : workerPorcelainAPI;
  minerAddr : Address;
  minerOwnerAddr : Address;
  workerSigner : Signer;
  getAncestors : GetAncestors;
  election : electionUtil;
  ticketGen : ticketGenerator;
  poster : PoStGenerator
}.

(** *** Outputs and the output channel *)

Record Output := mkOutput {
  NewBlock : option Block;
  Err : option Error
}.

Definition NewOutput (b : option Block) (e : option Error) : Output :=
  {| NewBlock := b; Err := e |}.

(** What has been sent on [outCh], oldest first. *)
Definition Chan := list Output.

(** *** The caller's context

    [Mine] looks at its context three times: [ctx.Err()] on entry, and
    [ctx.Done()] in each of the two [select] statements, where a
    cancelled context competes with the proof engine's goroutine. *)
Record Context := mkContext {
  errAtEntry : bool;
  doneFirstAtCandidates : bool;
  doneFirstAtPoSt : bool
}.

(** The case a [select] over [ctx.Done()], [errCh] and the result channel
    takes: the goroutine sends its error or its result on one of two
    channels, and the context may be done before that. *)
Inductive Selected (A : Type) : Type :=
| CtxDone
| FromErrCh (e : Error)
| FromResultCh (a : A).
Arguments CtxDone {A}.
Arguments FromErrCh {A} e.
Arguments FromResultCh {A} a.

Definition select {A} (doneFirst : bool) (r : result Error A) : Selected A :=
  if doneFirst then CtxDone
  else match r with
       | Fail e => FromErrCh e
       | Ok a => FromResultCh a
       end.

(** *** Statements of [Mine]

    A statement runs on the channel's contents and either goes on with a
    value or returns from [Mine] with the named result [won]. *)
Definition M (A : Type) : Type := Chan -> Chan * (A + bool).

Definition ret {A} (a : A) : M A := fun ch => (ch, inl a).

Definition bind {A B} (m : M A) (k : A -> M B) : M B :=
  fun ch =>
    match m ch with
    | (ch', inl a) => k a ch'
    | (ch', inr won) => (ch', inr won)
    end.

(** [outCh <- o] *)
Definition send (o : Output) : M unit := fun ch => (ch ++ [o], inl tt).

(** [return] with the current value of [won] *)
Definition return_ {A} (won : bool) : M A := fun ch => (ch, inr won).

Notation "x <- m ;; k" := (bind m (fun x => k))
  (at level 61, m at next level, right associativity).
Notation "m ;;; k" := (bind m (fun _ => k))
  (at level 61, right associativity).

(** [if err != nil { outCh <- Output{Err: err}; return }] *)
Definition check {A} (r : result Error A) : M A :=
  match r with
  | Ok a => ret a
  | Fail e => send {| NewBlock := None; Err := Some e |} ;;; return_ false
  end.

Definition getPowerTable (w : DefaultWorker) (baseKey : TipSetKey)
    : result Error PowerTableView :=
  match PowerStateView (api w) baseKey with
  | Fail e => Fail e
  | Ok view => Ok (NewPowerTableView view)
  end.

(** The loop over the candidates: one hasher serves all of them. *)
Fixpoint winnersLoop (w : DefaultWorker) (sectorNum networkPower sectorSize : Z)
    (hasher : Hasher) (candidates winners : list Candidate) : list Candidate :=
  match candidates with
  | [] => winners
  | candidate :: rest =>
      let hasher := HasherBytes hasher (PartialTicket candidate) in
      let (challengeTicket, hasher) := HasherHash hasher in
      let winners :=
        if CandidateWins (election w) challengeTicket sectorNum 0
             (Uint64 networkPower) sectorSize
        then winners ++ [candidate]
        else winners in
      winnersLoop w sectorNum networkPower sectorSize hasher rest winners
  end.

Definition Mine (w : DefaultWorker) (ctx : Context) (base : TipSet)
    (nullBlkCount : Z) : M bool :=
  if negb (Defined base) then
    send {| NewBlock := None; Err := Some errBadInputTipset |} ;;;
    return_ false
  else if errAtEntry ctx then
    return_ false
  else
    (* Read uncached worker address *)
    view <- check (PowerStateView (api w) (Key base)) ;;
    addrs <- check (MinerControlAddresses view (minerAddr w)) ;;
    let workerAddr := snd addrs in
    prevTicket <- check (MinTicket base) ;;
    nextTicket <-
      check (NextTicket (ticketGen w) prevTicket workerAddr (workerSigner w)) ;;
    (* lookback consensus.ElectionLookback for the election ticket *)
    baseHeight <- check (Height base) ;;
    ancestors <-
      check (getAncestors w base
               (Binary.toInt64
                  (baseHeight
                   + Binary.toInt64 (Binary.uint64 (nullBlkCount + 1))))) ;;
    electionTicket <- check (SampleNthTicket (ElectionLookback - 1) ancestors) ;;
    postRandomness <-
      check (GeneratePoStRandomness (election w) electionTicket workerAddr
               (workerSigner w) nullBlkCount) ;;
    powerTable <- check (getPowerTable w (Key base)) ;;
    sortedSectorInfos <- check (SortedSectorInfos powerTable (minerAddr w)) ;;
    (* Generate election post candidates *)
    candidates <-
      match select (doneFirstAtCandidates ctx)
              (GenerateCandidates (election w) postRandomness
                 sortedSectorInfos (poster w)) with
      | CtxDone => ret []
      | FromErrCh e =>
          send {| NewBlock := None; Err := Some e |} ;;; return_ false
      | FromResultCh genResult => ret genResult
      end ;;
    (* Look for any winning candidates *)
    sectorNum <- check (NumSectors powerTable (minerAddr w)) ;;
    networkPower <- check (Total powerTable) ;;
    sectorSize <- check (SectorSize powerTable (minerAddr w)) ;;
    let winners :=
      winnersLoop w sectorNum networkPower sectorSize NewHasher candidates [] in
    (* no winners we are done *)
    if (length winners =? 0)%nat then
      return_ false
    else
      (* Generate PoSt *)
      post <-
        match select (doneFirstAtPoSt ctx)
                (GeneratePoSt (election w) sortedSectorInfos postRandomness
                   winners (poster w)) with
        | CtxDone => ret []
        | FromErrCh e =>
            send {| NewBlock := None; Err := Some e |} ;;; return_ false
        | FromResultCh postOut => ret postOut
        end ;;
      let postInfo := NewEPoStInfo post postRandomness winners in
      let (next, err) :=
        Generate base nextTicket (Binary.toInt64 nullBlkCount) postInfo in
      send (NewOutput next err) ;;;
      return_ true.

(** One call of [Mine] on a channel: what the channel holds afterwards
    and the boolean returned. *)
Definition run (m : M bool) (outCh : Chan) : Chan * bool :=
  match m outCh with
  | (ch, inl won) => (ch, won)
  | (ch, inr won) => (ch, won)
  end.

(** *** The phases of an attempt

    The specification (section 4.4) describes an attempt phase by phase.
    The definitions below name what each phase hands to the next, so that
    the properties of [Mine] can speak of "candidate generation succeeds"
    or "no candidate wins". *)

Definition andThen {A B} (r : result Error A) (k : A -> result Error B)
    : result Error B :=
  match r with
  | Ok a => k a
  | Fail e => Fail e
  end.

(** What steps 2 to 6 produce before the proof engine is called. *)
Record Prepared := mkPrepared {
  pNextTicket : Ticket;
  pPostRandomness : list byte;
  pPowerTable : PowerTableView;
  pSectorInfos : SortedPublicSectorInfo
}.

Definition prepare (w : DefaultWorker) (base : TipSet) (nullBlkCount : Z)
    : result Error Prepared :=
  andThen (PowerStateView (api w) (Key base)) (fun view =>
  andThen (MinerControlAddresses view (minerAddr w)) (fun addrs =>
  andThen (MinTicket base) (fun prevTicket =>
  andThen (NextTicket (ticketGen w) prevTicket (snd addrs) (workerSigner w))
    (fun nextTicket =>
  andThen (Height base) (fun baseHeight =>
  andThen (getAncestors w base
             (Binary.toInt64
                (baseHeight
                 + Binary.toInt64 (Binary.uint64 (nullBlkCount + 1)))))
    (fun ancestors =>
  andThen (SampleNthTicket (ElectionLookback - 1) ancestors) (fun electionTicket =>
  andThen (GeneratePoStRandomness (election w) electionTicket (snd addrs)
             (workerSigner w) nullBlkCount) (fun postRandomness =>
  andThen (getPowerTable w (Key base)) (fun powerTable =>
  andThen (SortedSectorInfos powerTable (minerAddr w)) (fun sortedSectorInfos =>
  Ok {| pNextTicket := nextTicket;
        pPostRandomness := postRandomness;
        pPowerTable := powerTable;
        pSectorInfos := sortedSectorInfos |})))))))))).

(** The three power-table reads before win evaluation: the miner's sector
    count, the network's total power and the miner's sector size. *)
Definition readPower (w : DefaultWorker) (p : Prepared) : result Error (Z * Z * Z) :=
  andThen (NumSectors (pPowerTable p) (minerAddr w)) (fun sectorNum =>
  andThen (Total (pPowerTable p)) (fun networkPower =>
  andThen (SectorSize (pPowerTable p) (minerAddr w)) (fun sectorSize =>
  Ok (sectorNum, networkPower, sectorSize)))).

(** Each candidate with the challenge ticket the hasher returns for it,
    when the candidates are fed to the hasher [h] in order. *)
Fixpoint challenges (h : Hasher) (candidates : list Candidate)
    : list (Candidate * list byte) :=
  match candidates with
  | [] => []
  | c :: rest =>
      let r := HasherHash (HasherBytes h (PartialTicket c)) in
      (c, fst r) :: challenges (snd r) rest
  end.

(** The digest of one byte string by a new hasher. *)
Definition digest (b : list byte) : list byte :=
  fst (HasherHash (HasherBytes NewHasher b)).

(** The win test as an attempt applies it: the fault count is 0. *)
Definition winsAt (w : DefaultWorker) (sectorNum networkPower sectorSize : Z)
    (challengeTicket : list byte) : bool :=
  CandidateWins (election w) challengeTicket sectorNum 0 (Uint64 networkPower)
    sectorSize.

(** The worker [w] with another win test. *)
Definition withWinTest (w : DefaultWorker)
    (test : list byte -> Z -> Z -> Z -> Z -> bool) : DefaultWorker :=
  {| api := api w;
     minerAddr := minerAddr w;
     minerOwnerAddr := minerOwnerAddr w;
     workerSigner := workerSigner w;
     getAncestors := getAncestors w;
     election :=
       {| GeneratePoStRandomness := GeneratePoStRandomness (election w);
          GenerateCandidates := GenerateCandidates (election w);
          GeneratePoSt := GeneratePoSt (election w);
          CandidateWins := test |};
     ticketGen := ticketGen w;
     poster := poster w |}.

(** The error output of a failed step. *)
Definition errorOutput (e : Error) : Output := {| NewBlock := None; Err := Some e |}.

(** *** The win evaluation loop *)

Lemma winnersLoop_filter w sectorNum networkPower sectorSize h candidates winners :
  winnersLoop w sectorNum networkPower sectorSize h candidates winners =
  winners ++
  map fst (filter (fun cc => winsAt w sectorNum networkPower sectorSize (snd cc))
             (challenges h candidates)).
Proof.
  revert h winners.
  induction candidates as [| c rest IH]; intros h winners; cbn [winnersLoop challenges].
  - cbn. rewrite app_nil_r. reflexivity.
  - destruct (HasherHash (HasherBytes h (PartialTicket c))) as [challenge h'] eqn:E.
    cbn [filter fst snd]. rewrite IH. unfold winsAt at 2.
    destruct (CandidateWins _ _ _ _ _ _).
    + cbn [map fst]. rewrite <- app_assoc. reflexivity.
    + reflexivity.
Qed.

Lemma challenges_reset h candidates :
  (forall h', snd (HasherHash h') = NewHasher) ->
  h = NewHasher ->
  challenges h candidates = map (fun c => (c, digest (PartialTicket c))) candidates.
Proof.
  intros Hreset. revert h.
  induction candidates as [| c rest IH]; intros h ->; [reflexivity |].
  cbn [challenges map]. unfold digest at 1. f_equal.
  apply IH. apply Hreset.
Qed.

Lemma filter_map_fst {A B} (f : B -> bool) (g : A -> B) (l : list A) :
  map fst (filter (fun cc => f (snd cc)) (map (fun c => (c, g c)) l))
  = filter (fun c => f (g c)) l.
Proof.
  induction l as [| a l IH]; [reflexivity |].
  cbn [map filter snd]. destruct (f (g a)); cbn [map fst]; rewrite IH; reflexivity.
Qed.

Lemma winnersLoop_withWinTest w test sectorNum networkPower sectorSize h candidates winners :
  (forall challenge sn np ss,
     test challenge sn 0 np ss = CandidateWins (election w) challenge sn 0 np ss) ->
  winnersLoop (withWinTest w test) sectorNum networkPower sectorSize h candidates winners
  = winnersLoop w sectorNum networkPower sectorSize h candidates winners.
Proof.
  intros Hagree. revert h winners.
  induction candidates as [| c rest IH]; intros h winners; [reflexivity |].
  cbn [winnersLoop]. destruct (HasherHash _) as [challenge h'].
  cbn [withWinTest election CandidateWins]. rewrite Hagree. apply IH.
Qed.

(** *** An attempt, phase by phase *)

Definition selectedOr {A} (default : A) (s : Selected A) : A :=
  match s with
  | FromResultCh a => a
  | _ => default
  end.

(** The outcome of an attempt that passed the two entry checks: what the
    channel holds afterwards and whether the attempt won. A cancelled race
    leaves the proof engine's result at its zero value, an empty slice. *)
Definition attempt (w : DefaultWorker) (ctx : Context) (base : TipSet)
    (nullBlkCount : Z) (outCh : Chan) : Chan * bool :=
  match prepare w base nullBlkCount with
  | Fail e => (outCh ++ [errorOutput e], false)
  | Ok p =>
      let raceC :=
        select (doneFirstAtCandidates ctx)
          (GenerateCandidates (election w) (pPostRandomness p) (pSectorInfos p)
             (poster w)) in
      match raceC with
      | FromErrCh e => (outCh ++ [errorOutput e], false)
      | _ =>
          match readPower w p with
          | Fail e => (outCh ++ [errorOutput e], false)
          | Ok (sectorNum, networkPower, sectorSize) =>
              let winners :=
                map fst
                  (filter (fun cc => winsAt w sectorNum networkPower sectorSize (snd cc))
                     (challenges NewHasher (selectedOr [] raceC))) in
              match winners with
              | [] => (outCh, false)
              | _ :: _ =>
                  let raceP :=
                    select (doneFirstAtPoSt ctx)
                      (GeneratePoSt (election w) (pSectorInfos p)
                         (pPostRandomness p) winners (poster w)) in
                  match raceP with
                  | FromErrCh e => (outCh ++ [errorOutput e], false)
                  | _ =>
                      let g :=
                        Generate base (pNextTicket p) (Binary.toInt64 nullBlkCount)
                          (NewEPoStInfo (selectedOr [] raceP) (pPostRandomness p)
                             winners) in
                      (outCh ++ [NewOutput (fst g) (snd g)], true)
                  end
              end
          end
      end
  end.

Ltac split_result :=
  match goal with
  | |- context [match ?r with Ok _ => _ | Fail _ => _ end] =>
      destruct r eqn:?; cbn; try reflexivity
  end.

Lemma run_Mine_attempt w ctx base nullBlkCount outCh :
  Defined base = true ->
  errAtEntry ctx = false ->
  run (Mine w ctx base nullBlkCount) outCh = attempt w ctx base nullBlkCount outCh.
Proof.
  intros Hdef Hctx.
  unfold Mine, attempt, prepare, readPower, andThen, run, bind, check, ret,
    send, return_, errorOutput, select.
  rewrite Hdef, Hctx. cbn [negb].
  do 10 split_result.
  destruct (doneFirstAtCandidates ctx); cbn [selectedOr].
  - do 3 split_result.
  - split_result. do 3 split_result. rewrite winnersLoop_filter. cbn [app].
    destruct (map fst _) as [| c0 winners] eqn:Hw; cbn; [reflexivity |].
    destruct (doneFirstAtPoSt ctx); cbn.
    + destruct (Generate _ _ _ _). reflexivity.
    + split_result. destruct (Generate _ _ _ _). reflexivity.
Qed.

Lemma winners_nil_iff {A B} (f : B -> bool) (l : list (A * B)) :
  map fst (filter (fun cc => f (snd cc)) l) = []
  <-> Forall (fun cc => f (snd cc) = false) l.
Proof.
  induction l as [| a l IH]; cbn [filter map].
  - split; auto.
  - destruct (f (snd a)) eqn:E; cbn [map]; split; intros H.
    + discriminate.
    + inversion H; congruence.
    + constructor; [exact E | apply IH; exact H].
    + inversion H; subst. apply IH. assumption.
Qed.

Lemma winners_exists {A B} (f : B -> bool) (l : list (A * B)) :
  Exists (fun cc => f (snd cc) = true) l ->
  map fst (filter (fun cc => f (snd cc)) l) <> [].
Proof.
  intros Hex Hnil. apply winners_nil_iff in Hnil.
  rewrite Forall_forall in Hnil. apply Exists_exists in Hex.
  destruct Hex as (x & Hin & Hx). rewrite (Hnil x Hin) in Hx. discriminate.
Qed.

(** The context is never seen cancelled. *)
Definition neverCancelled (ctx : Context) : Prop :=
  errAtEntry ctx = false /\
  doneFirstAtCandidates ctx = false /\
  doneFirstAtPoSt ctx = false.

(** Candidate generation succeeds and no candidate passes the win test. *)
Definition NoWinner (w : DefaultWorker) (base : TipSet) (nullBlkCount : Z) : Prop :=
  exists p candidates sectorNum networkPower sectorSize,
    prepare w base nullBlkCount = Ok p /\
    GenerateCandidates (election w) (pPostRandomness p) (pSectorInfos p) (poster w)
      = Ok candidates /\
    readPower w p = Ok (sectorNum, networkPower, sectorSize) /\
    Forall (fun cc => winsAt w sectorNum networkPower sectorSize (snd cc) = false)
      (challenges NewHasher candidates).

(** *** The worker's properties *)

(** C4. When candidate generation succeeds and no candidate satisfies the
    win test, [Mine] sends nothing on the output channel, neither a block
    nor an error, and returns false. *)
Theorem Mine_no_winner_silent w ctx base nullBlkCount outCh
    p candidates sectorNum networkPower sectorSize :
  Defined base = true ->
  errAtEntry ctx = false ->
  prepare w base nullBlkCount = Ok p ->
  doneFirstAtCandidates ctx = false ->
  GenerateCandidates (election w) (pPostRandomness p) (pSectorInfos p) (poster w)
    = Ok candidates ->
  readPower w p = Ok (sectorNum, networkPower, sectorSize) ->
  Forall (fun cc =>
            CandidateWins (election w) (snd cc) sectorNum 0 (Uint64 networkPower)
              sectorSize = false)
    (challenges NewHasher candidates) ->
  run (Mine w ctx base nullBlkCount) outCh = (outCh, false).
Proof.
  intros Hdef Hctx Hprep Hdone Hgen Hpow Hnone.
  rewrite run_Mine_attempt by assumption.
  unfold attempt, select. rewrite Hprep, Hdone, Hgen, Hpow. cbn [selectedOr].
  apply (winners_nil_iff (winsAt w sectorNum networkPower sectorSize)) in Hnone.
  rewrite Hnone. reflexivity.
Qed.

(** C9. When at least one candidate wins and the final-proof race does not
    end in an error (the proof is delivered, or the context is done first
    and the proof stays empty), [Mine] sends exactly what [Generate]
    returned and returns true; this also holds when [Generate] fails, where
    the one output carries the error and no block. *)
Theorem Mine_winner_returns_true w ctx base nullBlkCount outCh
    p candidates sectorNum networkPower sectorSize post :
  Defined base = true ->
  errAtEntry ctx = false ->
  prepare w base nullBlkCount = Ok p ->
  doneFirstAtCandidates ctx = false ->
  GenerateCandidates (election w) (pPostRandomness p) (pSectorInfos p) (poster w)
    = Ok candidates ->
  readPower w p = Ok (sectorNum, networkPower, sectorSize) ->
  Exists (fun cc =>
            CandidateWins (election w) (snd cc) sectorNum 0 (Uint64 networkPower)
              sectorSize = true)
    (challenges NewHasher candidates) ->
  let winners :=
    winnersLoop w sectorNum networkPower sectorSize NewHasher candidates [] in
  (doneFirstAtPoSt ctx = true /\ post = [] \/
   doneFirstAtPoSt ctx = false /\
   GeneratePoSt (election w) (pSectorInfos p) (pPostRandomness p) winners (poster w)
     = Ok post) ->
  let g :=
    Generate base (pNextTicket p) (Binary.toInt64 nullBlkCount)
      (NewEPoStInfo post (pPostRandomness p) winners) in
  run (Mine w ctx base nullBlkCount) outCh
    = (outCh ++ [NewOutput (fst g) (snd g)], true) /\
  forall e, g = (None, Some e) ->
    run (Mine w ctx base nullBlkCount) outCh
      = (outCh ++ [{| NewBlock := None; Err := Some e |}], true).
Proof.
  intros Hdef Hctx Hprep Hdone Hgen Hpow Hwin winners Hrace g.
  assert (Hrun : run (Mine w ctx base nullBlkCount) outCh
                 = (outCh ++ [NewOutput (fst g) (snd g)], true)).
  { rewrite run_Mine_attempt by assumption.
    unfold attempt, select. rewrite Hprep, Hdone, Hgen, Hpow. cbn [selectedOr].
    subst g winners. rewrite winnersLoop_filter in *. cbn [app] in *.
    pose proof (winners_exists (winsAt w sectorNum networkPower sectorSize) _ Hwin)
      as Hne.
    destruct (map fst _) as [| c0 ws] eqn:Hws; [congruence |].
    destruct Hrace as [[Hd ->] | [Hd Hpost]]; rewrite Hd.
    - reflexivity.
    - rewrite Hpost. reflexivity. }
  split; [exact Hrun |].
  intros e Hg. rewrite Hrun, Hg. reflexivity.
Qed.

Lemma prepare_needs_base w nullBlkCount p :
  prepare w (Chain.UndefTipSet Cid) nullBlkCount = Ok p -> False.
Proof.
  unfold prepare, andThen.
  destruct (PowerStateView _ _); [| discriminate].
  destruct (MinerControlAddresses _ _); discriminate.
Qed.

(** C3. Win evaluation keeps, in order, exactly the candidates whose
    challenge ticket passes the win test called with the miner's sector
    count, a fault count of 0, the network power and the sector size. No
    other fault count is ever passed: a win test that differs only at
    non-zero fault counts leaves every run of [Mine] unchanged. The
    challenge ticket is the hash of the candidate's partial ticket as soon
    as [Hash] leaves the shared hasher as new. *)
Theorem Mine_win_test_zero_faults w sectorNum networkPower sectorSize candidates :
  winnersLoop w sectorNum networkPower sectorSize NewHasher candidates []
    = map fst
        (filter (fun cc =>
                   CandidateWins (election w) (snd cc) sectorNum 0
                     (Uint64 networkPower) sectorSize)
           (challenges NewHasher candidates)) /\
  (forall test,
     (forall challenge sn np ss,
        test challenge sn 0 np ss = CandidateWins (election w) challenge sn 0 np ss) ->
     forall ctx base nullBlkCount outCh,
       run (Mine (withWinTest w test) ctx base nullBlkCount) outCh
       = run (Mine w ctx base nullBlkCount) outCh) /\
  ((forall h, snd (HasherHash h) = NewHasher) ->
   winnersLoop w sectorNum networkPower sectorSize NewHasher candidates []
     = filter (fun c =>
                 CandidateWins (election w) (digest (PartialTicket c)) sectorNum 0
                   (Uint64 networkPower) sectorSize)
         candidates).
Proof.
  split; [apply winnersLoop_filter |]. split.
  - intros test Hagree ctx base nullBlkCount outCh.
    destruct (Defined base) eqn:Hdef.
    2:{ unfold Mine. rewrite Hdef. reflexivity. }
    destruct (errAtEntry ctx) eqn:Hctx.
    1:{ unfold Mine. rewrite Hdef, Hctx. reflexivity. }
    rewrite !run_Mine_attempt by assumption. unfold attempt.
    change (prepare (withWinTest w test) base nullBlkCount)
      with (prepare w base nullBlkCount).
    destruct (prepare w base nullBlkCount) as [p | e]; [| reflexivity].
    cbn [withWinTest election GenerateCandidates GeneratePoSt poster].
    destruct (select _ _) as [| e | cands]; try reflexivity;
      change (readPower (withWinTest w test) p) with (readPower w p);
      destruct (readPower w p) as [[[sn np] ss] | e]; try reflexivity;
      rewrite (filter_ext
                 (fun cc => winsAt (withWinTest w test) sn np ss (snd cc))
                 (fun cc => winsAt w sn np ss (snd cc)))
        by (intros cc; apply Hagree);
      reflexivity.
  - intros Hreset. rewrite winnersLoop_filter. cbn [app].
    rewrite (challenges_reset _ _ Hreset eq_refl).
    apply (filter_map_fst
             (fun t => CandidateWins (election w) t sectorNum 0 (Uint64 networkPower)
                         sectorSize)
             (fun c => digest (PartialTicket c))).
Qed.

(** C8, amended. [Mine] sends at most one output on every input. It sends
    none when the base is defined and the context is already cancelled on
    entry; and when the context is never seen cancelled it sends none
    exactly if candidate generation succeeds and no candidate wins, and
    exactly one output otherwise. *)
Theorem Mine_at_most_one_output w ctx base nullBlkCount outCh :
  exists outs,
    fst (run (Mine w ctx base nullBlkCount) outCh) = outCh ++ outs /\
    (length outs <= 1)%nat /\
    (Defined base = true -> errAtEntry ctx = true ->
     outs = [] /\ snd (run (Mine w ctx base nullBlkCount) outCh) = false) /\
    (neverCancelled ctx ->
     (outs = [] <-> NoWinner w base nullBlkCount) /\
     (outs <> [] <-> length outs = 1%nat)).
Proof.
  assert (Hone : forall o : Output, ([o] <> []) <-> length [o] = 1%nat).
  { intros o. split; [reflexivity | discriminate]. }
  assert (Hzero : (@nil Output <> []) <-> length (@nil Output) = 1%nat).
  { split; [congruence | discriminate]. }
  destruct (Defined base) eqn:Hdef.
  2:{ exists [errorOutput errBadInputTipset].
      unfold Mine. rewrite Hdef. cbn.
      split; [reflexivity |]. split; [lia |]. split; [discriminate |].
      intros _. split; [| apply Hone]. split; [discriminate |].
      intros (p & _ & _ & _ & _ & Hp & _). exfalso.
      destruct base; [cbn in Hdef; discriminate Hdef |].
      exact (prepare_needs_base _ _ _ Hp). }
  destruct (errAtEntry ctx) eqn:Hctx.
  1:{ exists []. unfold Mine. rewrite Hdef, Hctx. cbn. rewrite app_nil_r.
      split; [reflexivity |]. split; [lia |]. split; [auto |].
      intros [? _]. congruence. }
  rewrite run_Mine_attempt by assumption. unfold attempt, neverCancelled, NoWinner.
  destruct (prepare w base nullBlkCount) as [p | e] eqn:Hprep.
  2:{ exists [errorOutput e]. cbn. split; [reflexivity |]. split; [lia |].
      split; [discriminate |]. intros _. split; [| apply Hone].
      split; [discriminate |]. intros (p & _ & _ & _ & _ & [=] & _). }
  unfold select.
  destruct (doneFirstAtCandidates ctx) eqn:HdC.
  - (* the context is done before the candidates arrive *)
    cbn [selectedOr challenges filter map].
    destruct (readPower w p) as [[[sn np] ss] | e].
    + exists []. cbn. rewrite app_nil_r. split; [reflexivity |]. split; [lia |].
      split; [discriminate |]. intros (_ & [=] & _).
    + exists [errorOutput e]. cbn. split; [reflexivity |]. split; [lia |].
      split; [discriminate |]. intros (_ & [=] & _).
  - destruct (GenerateCandidates _ _ _ _) as [cands | e] eqn:Hgen.
    2:{ exists [errorOutput e]. cbn. split; [reflexivity |]. split; [lia |].
        split; [discriminate |]. intros _. split; [| apply Hone].
        split; [discriminate |].
        intros (p' & c' & _ & _ & _ & [= <-] & Hg & _). congruence. }
    cbn [selectedOr].
    destruct (readPower w p) as [[[sn np] ss] | e] eqn:Hpow.
    2:{ exists [errorOutput e]. cbn. split; [reflexivity |]. split; [lia |].
        split; [discriminate |]. intros _. split; [| apply Hone].
        split; [discriminate |].
        intros (p' & c' & sn' & np' & ss' & [= <-] & _ & Hr & _). congruence. }
    destruct (map fst _) as [| c0 ws] eqn:Hws.
    + exists []. cbn. rewrite app_nil_r. split; [reflexivity |]. split; [lia |].
      split; [discriminate |]. intros _. split; [| apply Hzero].
      split; [| reflexivity]. intros _.
      exists p, cands, sn, np, ss. repeat (split; [assumption || reflexivity |]).
      apply (winners_nil_iff (winsAt w sn np ss)). exact Hws.
    + assert (Hnot : ~ (exists p' candidates sectorNum networkPower sectorSize,
                          Ok (E := Error) p = Ok p' /\
                          GenerateCandidates (election w) (pPostRandomness p')
                            (pSectorInfos p') (poster w) = Ok candidates /\
                          readPower w p' = Ok (sectorNum, networkPower, sectorSize) /\
                          Forall (fun cc =>
                                    winsAt w sectorNum networkPower sectorSize (snd cc)
                                    = false)
                            (challenges NewHasher candidates))).
      { intros (p' & c' & sn' & np' & ss' & [= <-] & Hg & Hr & Hall).
        rewrite Hgen in Hg. injection Hg as <-.
        rewrite Hpow in Hr. injection Hr as <- <- <-.
        apply (winners_nil_iff (winsAt w sn np ss)) in Hall. congruence. }
      destruct (doneFirstAtPoSt ctx) eqn:HdP.
      * eexists [_]. cbn. split; [reflexivity |]. split; [lia |].
        split; [discriminate |]. intros (_ & _ & [=]).
      * destruct (GeneratePoSt _ _ _ _ _) as [post | e].
        -- eexists [_]. cbn. split; [reflexivity |]. split; [lia |].
           split; [discriminate |]. intros _. split; [| apply Hone].
           split; [discriminate | intros H; destruct (Hnot H)].
        -- exists [errorOutput e]. cbn. split; [reflexivity |]. split; [lia |].
           split; [discriminate |]. intros _. split; [| apply Hone].
           split; [discriminate | intros H; destruct (Hnot H)].
Qed.

(** *** Further properties of the worker *)

(** The worker [w] with another way to get the ancestors. *)
Definition withAncestors (w : DefaultWorker) (f : GetAncestors) : DefaultWorker :=
  {| api := api w;
     minerAddr := minerAddr w;
     minerOwnerAddr := minerOwnerAddr w;
     workerSigner := workerSigner w;
     getAncestors := f;
     election := election w;
     ticketGen := ticketGen w;
     poster := poster w |}.

(** [l1] is [l2] with some elements left out, the others in their order. *)
Inductive Subseq {A : Type} : list A -> list A -> Prop :=
| subseq_nil : Subseq [] []
| subseq_skip x l1 l2 : Subseq l1 l2 -> Subseq l1 (x :: l2)
| subseq_keep x l1 l2 : Subseq l1 l2 -> Subseq (x :: l1) (x :: l2).

Lemma lookback_height_exact baseHeight nullBlkCount :
  0 <= nullBlkCount < 2 ^ 63 - 1 ->
  - 2 ^ 63 <= baseHeight + nullBlkCount + 1 < 2 ^ 63 ->
  Binary.toInt64 (baseHeight + Binary.toInt64 (Binary.uint64 (nullBlkCount + 1)))
  = baseHeight + nullBlkCount + 1.
Proof.
  intros Hn Hh.
  assert (Hsmall : forall v, 0 <= v < 2 ^ 63 -> Binary.toInt64 v = v).
  { intros v Hv. unfold Binary.toInt64, Binary.uint64.
    rewrite Z.mod_small by lia.
    destruct (Z.ltb_spec v (2 ^ 63)); lia. }
  unfold Binary.uint64 at 1. rewrite (Z.mod_small (nullBlkCount + 1)) by lia.
  rewrite (Hsmall (nullBlkCount + 1)) by lia.
  rewrite Z.add_assoc.
  remember (baseHeight + nullBlkCount + 1) as v eqn:Ev.
  unfold Binary.toInt64, Binary.uint64.
  destruct (Z_le_gt_dec 0 v) as [Hpos | Hneg].
  - rewrite Z.mod_small by lia. destruct (Z.ltb_spec v (2 ^ 63)); lia.
  - assert (Hm : v mod 2 ^ 64 = v + 2 ^ 64).
    { symmetry. apply (Z.mod_unique v (2 ^ 64) (-1)); lia. }
    rewrite Hm. destruct (Z.ltb_spec (v + 2 ^ 64) (2 ^ 63)); lia.
Qed.

Lemma run_Mine_undefined w ctx base nullBlkCount outCh :
  Defined base = false ->
  run (Mine w ctx base nullBlkCount) outCh
  = (outCh ++ [errorOutput errBadInputTipset], false).
Proof.
  intros Hdef. unfold Mine. rewrite Hdef. reflexivity.
Qed.

(** X13. A failure of any step before the proof engine is called (reading
    the worker address, the tickets, the base height, the ancestors, the
    election ticket, the randomness, the power table or the sector set) ends
    the attempt: [Mine] sends the error of the first step that fails, sends
    nothing else and returns false. *)
Theorem Mine_prepare_failure w ctx base nullBlkCount outCh e :
  Defined base = true ->
  errAtEntry ctx = false ->
  prepare w base nullBlkCount = Fail e ->
  run (Mine w ctx base nullBlkCount) outCh
  = (outCh ++ [{| NewBlock := None; Err := Some e |}], false).
Proof.
  intros Hdef Hctx Hprep. rewrite run_Mine_attempt by assumption.
  unfold attempt. rewrite Hprep. reflexivity.
Qed.

(** X14. After the preparation, when the context is not done first, a
    failure of candidate generation, of one of the three power reads, or of
    the final proof generation is sent as the one output and [Mine] returns
    false; a failing final proof loses the attempt even though candidates
    have won. *)
Theorem Mine_late_failure w ctx base nullBlkCount outCh p e :
  Defined base = true ->
  errAtEntry ctx = false ->
  prepare w base nullBlkCount = Ok p ->
  doneFirstAtCandidates ctx = false ->
  let failed :=
    run (Mine w ctx base nullBlkCount) outCh
    = (outCh ++ [{| NewBlock := None; Err := Some e |}], false) in
  let generated candidates :=
    GenerateCandidates (election w) (pPostRandomness p) (pSectorInfos p) (poster w)
    = Ok candidates in
  (GenerateCandidates (election w) (pPostRandomness p) (pSectorInfos p) (poster w)
     = Fail e -> failed) /\
  (forall candidates,
     generated candidates -> readPower w p = Fail e -> failed) /\
  (forall candidates sectorNum networkPower sectorSize,
     generated candidates ->
     readPower w p = Ok (sectorNum, networkPower, sectorSize) ->
     let winners :=
       winnersLoop w sectorNum networkPower sectorSize NewHasher candidates [] in
     winners <> [] ->
     doneFirstAtPoSt ctx = false ->
     GeneratePoSt (election w) (pSectorInfos p) (pPostRandomness p) winners (poster w)
       = Fail e ->
     failed).
Proof.
  intros Hdef Hctx Hprep Hdone failed generated. subst failed generated.
  rewrite run_Mine_attempt by assumption.
  unfold attempt, select. rewrite Hprep, Hdone. cbv beta.
  split; [| split].
  - intros ->. reflexivity.
  - intros candidates -> ->. reflexivity.
  - intros candidates sn np ss -> -> Hne HdoneP Hpost.
    rewrite winnersLoop_filter in *. cbn [app selectedOr] in *.
    destruct (map fst _) as [| c0 ws] eqn:Hws; [congruence |].
    rewrite HdoneP, Hpost. reflexivity.
Qed.

(** X15. [Mine] never delivers a block while reporting that it did not
    win: when it returns false it has sent nothing or one error without a
    block, and when it returns true it has sent exactly one output. *)
Theorem Mine_result_shape w ctx base nullBlkCount outCh :
  (snd (run (Mine w ctx base nullBlkCount) outCh) = false ->
   fst (run (Mine w ctx base nullBlkCount) outCh) = outCh \/
   exists e,
     fst (run (Mine w ctx base nullBlkCount) outCh)
     = outCh ++ [{| NewBlock := None; Err := Some e |}]) /\
  (snd (run (Mine w ctx base nullBlkCount) outCh) = true ->
   exists next err,
     fst (run (Mine w ctx base nullBlkCount) outCh)
     = outCh ++ [NewOutput next err]).
Proof.
  destruct (Defined base) eqn:Hdef.
  2:{ rewrite run_Mine_undefined by exact Hdef. unfold errorOutput. cbn [fst snd].
      split; [intros _; right; eexists; reflexivity | discriminate]. }
  destruct (errAtEntry ctx) eqn:Hctx.
  1:{ unfold Mine. rewrite Hdef, Hctx. cbn.
      split; [intros _; left; reflexivity | discriminate]. }
  rewrite run_Mine_attempt by assumption. unfold attempt, select, errorOutput.
  destruct (prepare w base nullBlkCount) as [p | e];
    [| cbn [fst snd]; split; [intros _; right; eexists; reflexivity | discriminate]].
  destruct (doneFirstAtCandidates ctx);
    [| destruct (GenerateCandidates _ _ _ _) as [cands | e]];
    cbn [selectedOr];
    try (cbn [fst snd]; split; [intros _; right; eexists; reflexivity | discriminate]);
    (destruct (readPower w p) as [[[sn np] ss] | e];
     [| cbn [fst snd]; split; [intros _; right; eexists; reflexivity | discriminate]]);
    (destruct (map fst _) as [| c0 ws];
     [cbn [fst snd]; split; [intros _; left; reflexivity | discriminate] |]);
    (destruct (doneFirstAtPoSt ctx);
     [| destruct (GeneratePoSt _ _ _ _ _) as [post | e]]);
    cbn [selectedOr fst snd];
    first [ split; [discriminate | intros _; do 2 eexists; reflexivity]
          | split; [intros _; right; eexists; reflexivity | discriminate] ].
Qed.

Lemma prepare_withAncestors w f base nullBlkCount baseHeight :
  Height base = Ok baseHeight ->
  f base
    (Binary.toInt64 (baseHeight + Binary.toInt64 (Binary.uint64 (nullBlkCount + 1))))
  = getAncestors w base
      (Binary.toInt64 (baseHeight + Binary.toInt64 (Binary.uint64 (nullBlkCount + 1)))) ->
  prepare (withAncestors w f) base nullBlkCount = prepare w base nullBlkCount.
Proof.
  intros Hh Hf. unfold prepare, andThen.
  cbn [withAncestors api minerAddr workerSigner ticketGen election getAncestors].
  destruct (PowerStateView _ _); [| reflexivity].
  destruct (MinerControlAddresses _ _); [| reflexivity].
  destruct (MinTicket base); [| reflexivity].
  destruct (NextTicket _ _ _ _); [| reflexivity].
  rewrite Hh, Hf. reflexivity.
Qed.

(** X16. The only ancestors [Mine] asks for are those of the base at
    height [baseHeight + nullBlkCount + 1] (for counts and heights that do
    not overflow 64 bits): a worker that answers this one request in the
    same way runs the same. *)
Theorem Mine_ancestors_height w f ctx base nullBlkCount outCh baseHeight :
  Height base = Ok baseHeight ->
  0 <= nullBlkCount < 2 ^ 63 - 1 ->
  - 2 ^ 63 <= baseHeight + nullBlkCount + 1 < 2 ^ 63 ->
  f base (baseHeight + nullBlkCount + 1)
    = getAncestors w base (baseHeight + nullBlkCount + 1) ->
  run (Mine (withAncestors w f) ctx base nullBlkCount) outCh
  = run (Mine w ctx base nullBlkCount) outCh.
Proof.
  intros Hh Hn Hrange Hf.
  rewrite <- (lookback_height_exact baseHeight nullBlkCount Hn Hrange) in Hf.
  assert (Hdef : Defined base = true) by (destruct base; [reflexivity | discriminate Hh]).
  destruct (errAtEntry ctx) eqn:Hctx.
  1:{ unfold Mine. rewrite Hdef, Hctx. reflexivity. }
  rewrite !run_Mine_attempt by assumption. unfold attempt.
  rewrite (prepare_withAncestors w f base nullBlkCount baseHeight Hh Hf).
  reflexivity.
Qed.

Lemma filter_challenges_Subseq (f : list byte -> bool) h candidates :
  Subseq (map fst (filter (fun cc => f (snd cc)) (challenges h candidates)))
    candidates.
Proof.
  revert h. induction candidates as [| c rest IH]; intros h; cbn [challenges filter map].
  - constructor.
  - cbn [snd]. destruct (f _); cbn [map fst]; constructor; apply IH.
Qed.

Lemma Subseq_length {A} (l1 l2 : list A) :
  Subseq l1 l2 -> (length l1 <= length l2)%nat.
Proof. induction 1; cbn [length]; lia. Qed.

Lemma Subseq_In {A} (l1 l2 : list A) x : Subseq l1 l2 -> In x l1 -> In x l2.
Proof.
  induction 1 as [| y l1 l2 H IH | y l1 l2 H IH]; intros Hin.
  - exact Hin.
  - right. auto.
  - destruct Hin as [-> | Hin]; [left; reflexivity | right; auto].
Qed.

(** X17. Win evaluation does not reorder: the winners are the candidates
    in the order the proof engine returned them, with the losers left out;
    so there are no more winners than candidates and every winner is a
    candidate. *)
Theorem winners_keep_order w sectorNum networkPower sectorSize candidates :
  let winners :=
    winnersLoop w sectorNum networkPower sectorSize NewHasher candidates [] in
  Subseq winners candidates /\
  (length winners <= length candidates)%nat /\
  (forall c, In c winners -> In c candidates).
Proof.
  intros winners.
  assert (Hsub : Subseq winners candidates).
  { subst winners. rewrite winnersLoop_filter. cbn [app].
    apply (filter_challenges_Subseq (winsAt w sectorNum networkPower sectorSize)). }
  split; [exact Hsub |]. split.
  - exact (Subseq_length _ _ Hsub).
  - intros c. exact (Subseq_In _ _ c Hsub).
Qed.

(** The worker [w] with another final-proof generation. *)
Definition withPoSt (w : DefaultWorker)
    (g : SortedPublicSectorInfo -> list byte -> list Candidate -> PoStGenerator
         -> result Error (list byte)) : DefaultWorker :=
  {| api := api w;
     minerAddr := minerAddr w;
     minerOwnerAddr := minerOwnerAddr w;
     workerSigner := workerSigner w;
     getAncestors := getAncestors w;
     election :=
       {| GeneratePoStRandomness := GeneratePoStRandomness (election w);
          GenerateCandidates := GenerateCandidates (election w);
          GeneratePoSt := g;
          CandidateWins := CandidateWins (election w) |};
     ticketGen := ticketGen w;
     poster := poster w |}.

(** X18. The final proof is asked for once at most, over the sector set
    and the randomness that candidate generation was given and over exactly
    the winners: a proof engine that answers this one request in the same
    way gives the same run. *)
Theorem Mine_final_proof_inputs w g ctx base nullBlkCount outCh
    p candidates sectorNum networkPower sectorSize :
  Defined base = true ->
  errAtEntry ctx = false ->
  prepare w base nullBlkCount = Ok p ->
  doneFirstAtCandidates ctx = false ->
  GenerateCandidates (election w) (pPostRandomness p) (pSectorInfos p) (poster w)
    = Ok candidates ->
  readPower w p = Ok (sectorNum, networkPower, sectorSize) ->
  g (pSectorInfos p) (pPostRandomness p)
    (winnersLoop w sectorNum networkPower sectorSize NewHasher candidates [])
    (poster w)
  = GeneratePoSt (election w) (pSectorInfos p) (pPostRandomness p)
      (winnersLoop w sectorNum networkPower sectorSize NewHasher candidates [])
      (poster w) ->
  run (Mine (withPoSt w g) ctx base nullBlkCount) outCh
  = run (Mine w ctx base nullBlkCount) outCh.
Proof.
  intros Hdef Hctx Hprep Hdone Hgen Hpow Hg.
  rewrite !run_Mine_attempt by assumption. unfold attempt.
  change (prepare (withPoSt w g) base nullBlkCount) with (prepare w base nullBlkCount).
  rewrite Hprep.
  cbn [withPoSt election GenerateCandidates GeneratePoSt poster].
  unfold select. rewrite Hdone, Hgen. cbn [selectedOr].
  change (readPower (withPoSt w g) p) with (readPower w p). rewrite Hpow.
  change (fun cc : Candidate * list byte =>
            winsAt (withPoSt w g) sectorNum networkPower sectorSize (snd cc))
    with (fun cc : Candidate * list byte =>
            winsAt w sectorNum networkPower sectorSize (snd cc)).
  rewrite winnersLoop_filter in Hg. cbn [app] in Hg.
  destruct (map fst _) as [| c0 ws]; [reflexivity |].
  rewrite Hg. reflexivity.
Qed.

End Worker.

(** *** A small miner

    A worker for the tipset at height 7 of the small chain. The proof engine
    returns two candidates; the win test accepts a challenge that starts with
    a zero byte, when called with fault count 0. The hasher collects the
    bytes written to it, and [Hash] returns them and empties it. The block
    is the triple of ticket, null-block count and proof information. *)
Module Example.

Import Strings.String.

Definition Error := string.
Definition Cand := (nat * list byte)%type.
Definition PoStInfo := (list byte * list byte * list Cand)%type.
Definition Blk := (Chain.Ticket * Z * PoStInfo)%type.

Definition errUndefTipSet : Error := "undefined tipset"%string.
Definition errBadInputTipset : Error :=
  "bad input tipset with no blocks sent to Mine()"%string.
Definition errNoPower : Error := "no power table"%string.

Definition partialTicket (c : Cand) : list byte := snd c.

Definition sampleNthTicket (n : Z) (ancestors : list (Chain.TipSet nat))
    : result Error Chain.Ticket :=
  match nth_error ancestors (Z.to_nat n) with
  | Some (Some d) => Ok (Chain.tsMinTicket nat d)
  | _ => Fail errUndefTipSet
  end.

Definition newEPoStInfo (post rand : list byte) (winners : list Cand) : PoStInfo :=
  (post, rand, winners).

Definition generate (base : Chain.TipSet nat) (ticket : Chain.Ticket) (nulls : Z)
    (info : PoStInfo) : option Blk * option Error :=
  (Some (ticket, nulls, info), None).

Definition startsWithZero (challenge : list byte) : bool :=
  match challenge with
  | x00 :: _ => true
  | _ => false
  end.

Definition winTest (challenge : list byte) (sectorNum faults power size : Z) : bool :=
  (faults =? 0) && startsWithZero challenge.

Definition candA : Cand := (1%nat, [x00; x0a]).
Definition candB : Cand := (2%nat, [xff; x0b]).

Definition miner : DefaultWorker nat Error nat unit Cand (list nat) unit unit :=
  {| api := mkAPI nat Error unit (fun _ => Ok tt);
     minerAddr := 100%nat;
     minerOwnerAddr := 101%nat;
     workerSigner := tt;
     getAncestors := fun base _ => Ok [base];
     election :=
       {| GeneratePoStRandomness := fun t _ _ n =>
            Ok (Chain.VRFProof t ++ [Binary.byteOf n]);
          GenerateCandidates := fun _ _ _ => Ok [candA; candB];
          GeneratePoSt := fun _ _ _ _ => Ok [x01];
          CandidateWins := winTest |};
     ticketGen :=
       mkTicketGen Error nat unit (fun t _ _ => Ok (Chain.mkTicket (Chain.VRFProof t ++ [x01])));
     poster := tt |}.

(** The same miner with a win test nobody passes. *)
Definition loser : DefaultWorker nat Error nat unit Cand (list nat) unit unit :=
  withWinTest nat Error nat unit Cand (list nat) unit unit miner
    (fun _ _ _ _ _ => false).

Definition base : Chain.TipSet nat := Some Chain.Example.t7.

Definition background : Context := mkContext false false false.
Definition doneAtCandidates : Context := mkContext false true false.
Definition doneAtPoSt : Context := mkContext false false true.

(** [Mine] with the collaborators above; the power table's sector count is
    left open. *)
Definition mineWith (numSectors : unit -> nat -> result Error Z)
    (w : DefaultWorker nat Error nat unit Cand (list nat) unit unit)
    (ctx : Context) (b : Chain.TipSet nat) (nullBlkCount : Z)
    : M Error Blk bool :=
  Mine nat Error nat unit Blk Cand PoStInfo (list nat) unit unit unit (list byte)
    errUndefTipSet errBadInputTipset partialTicket
    (fun _ _ => Ok (101%nat, 102%nat))
    (fun v => v)
    (fun _ _ => Ok [1%nat; 2%nat])
    numSectors
    (fun _ => Ok 100)
    (fun _ _ => Ok 1024)
    sampleNthTicket 1 Binary.uint64 newEPoStInfo generate
    [] (fun h b => h ++ b) (fun h => (h, []))
    w ctx b nullBlkCount.

Definition mine := mineWith (fun _ _ => Ok 2).

Definition wonBlock (post : list byte) : Blk :=
  (Chain.mkTicket [x37; x01], 0, (post, [x37; x00], [candA])).

(** With a context that is never cancelled the miner wins with [candA] and
    sends the block; the loser sends nothing. *)
Example mine_wins :
  run Error Blk (mine miner background base 0) []
  = ([NewOutput Error Blk (Some (wonBlock [x01])) None], true).
Proof. reflexivity. Qed.

Example mine_loses :
  run Error Blk (mine loser background base 0) [] = ([], false).
Proof. reflexivity. Qed.

Example mine_undefined_base :
  run Error Blk (mine miner background None 0) []
  = ([NewOutput Error Blk None (Some errBadInputTipset)], false).
Proof. reflexivity. Qed.

Definition prepared : Prepared (list nat) unit :=
  {| pNextTicket := Chain.mkTicket [x37; x01];
     pPostRandomness := [x37; x00];
     pPowerTable := tt;
     pSectorInfos := [1%nat; 2%nat] |}.

Definition failingGenerate (base : Chain.TipSet nat) (ticket : Chain.Ticket)
    (nulls : Z) (info : PoStInfo) : option Blk * option Error :=
  (None, Some "block generation failed"%string).

(** A statement about [Mine] at the collaborators of the small miner, with
    the sector count and the block assembly left open. *)
Local Abbreviation at_miner numSectors gen thm :=
  (thm nat Error nat unit Blk Cand PoStInfo (list nat) unit unit unit (list byte)
     errUndefTipSet errBadInputTipset partialTicket
     (fun (_ : unit) (_ : nat) => Ok (E := Error) (101%nat, 102%nat))
     (fun v : unit => v)
     (fun (_ : unit) (_ : nat) => Ok (E := Error) [1%nat; 2%nat])
     numSectors
     (fun _ : unit => Ok (E := Error) 100)
     (fun (_ : unit) (_ : nat) => Ok (E := Error) 1024)
     sampleNthTicket 1 Binary.uint64 newEPoStInfo gen
     (@nil byte) (fun (h b : list byte) => h ++ b)
     (fun h : list byte => (h, @nil byte))).

Local Abbreviation twoSectors := (fun (_ : unit) (_ : nat) => Ok (E := Error) 2).

(** C2. The context is done before the final proof arrives: [Mine] leaves
    the [select], assembles a block around an empty proof, sends it and
    returns true. And when the context is done before the candidates arrive
    and the sector count cannot be read, [Mine] sends that error. In both
    runs an output is delivered after the cancellation. *)
Theorem Mine_cancelled_race_still_sends :
  run Error Blk (mine miner doneAtPoSt base 0) []
    = ([NewOutput Error Blk (Some (wonBlock [])) None], true) /\
  run Error Blk
    (mineWith (fun _ _ => Fail errNoPower) miner doneAtCandidates base 0) []
    = ([NewOutput Error Blk None (Some errNoPower)], false).
Proof. split; reflexivity. Qed.

(** C8 as stated fails: the loser's context is never cancelled, and still
    its run does not deliver exactly one output. *)
Lemma Mine_exactly_one_counterexample :
  ~ (neverCancelled background ->
     List.length (fst (run Error Blk (mine loser background base 0) [])) = 1%nat).
Proof.
  intros H.
  assert (Hctx : neverCancelled background) by (repeat split).
  specialize (H Hctx). cbn in H. discriminate H.
Qed.

(** C3 on the small miner: a win test that accepts everything at a non-zero
    fault count changes nothing, and the winners are the candidates whose
    hashed partial ticket passes the test at fault count zero. *)
Lemma Mine_win_test_zero_faults_witness :
  run Error Blk
    (mine (withWinTest nat Error nat unit Cand (list nat) unit unit miner
             (fun challenge _ faults _ _ =>
                negb (faults =? 0) || startsWithZero challenge))
       background base 0) []
  = run Error Blk (mine miner background base 0) [] /\
  winnersLoop nat Error nat unit Cand (list nat) unit unit (list byte)
    partialTicket Binary.uint64 (fun h b => h ++ b) (fun h => (h, []))
    miner 2 100 1024 [] [candA; candB] []
  = filter (fun c =>
              winTest (digest (list byte) [] (fun h b => h ++ b) (fun h => (h, []))
                         (partialTicket c))
                2 0 (Binary.uint64 100) 1024)
      [candA; candB].
Proof.
  destruct (at_miner twoSectors generate Mine_win_test_zero_faults
              miner 2 100 1024 [candA; candB]) as (_ & Hext & Hreset).
  split.
  - apply Hext. intros challenge sn np ss. reflexivity.
  - apply Hreset. intros h. reflexivity.
Defined.

(** C4 on the small miner with a win test nobody passes. *)
Lemma Mine_no_winner_silent_witness :
  run Error Blk (mine loser background base 0) [] = ([], false).
Proof.
  apply (at_miner twoSectors generate Mine_no_winner_silent
           loser background base 0 [] prepared [candA; candB] 2 100 1024);
    try reflexivity.
  repeat constructor.
Defined.

(** C9 on the small miner: the proof delivered, the context done first,
    and a failing block assembly; the attempt has won each time. *)
Lemma Mine_winner_returns_true_witness :
  run Error Blk (mine miner background base 0) []
    = ([NewOutput Error Blk (Some (wonBlock [x01])) None], true) /\
  run Error Blk (mine miner doneAtPoSt base 0) []
    = ([NewOutput Error Blk (Some (wonBlock [])) None], true) /\
  run Error Blk
    (at_miner twoSectors failingGenerate Mine miner background base 0) []
    = ([NewOutput Error Blk None (Some "block generation failed"%string)], true).
Proof.
  assert (Hwin : Exists (fun cc : Cand * list byte =>
                           winTest (snd cc) 2 0 (Binary.uint64 100) 1024 = true)
                   [(candA, [x00; x0a]); (candB, [xff; x0b])]).
  { left. reflexivity. }
  split; [| split].
  - apply (at_miner twoSectors generate Mine_winner_returns_true
             miner background base 0 [] prepared [candA; candB] 2 100 1024 [x01]);
      try reflexivity; [exact Hwin |].
    right. split; reflexivity.
  - apply (at_miner twoSectors generate Mine_winner_returns_true
             miner doneAtPoSt base 0 [] prepared [candA; candB] 2 100 1024 []);
      try reflexivity; [exact Hwin |].
    left. split; reflexivity.
  - apply (at_miner twoSectors failingGenerate Mine_winner_returns_true
             miner background base 0 [] prepared [candA; candB] 2 100 1024 [x01]);
      try reflexivity; [exact Hwin |].
    right. split; reflexivity.
Defined.

(** C8, amended, on the small miner: a context cancelled on entry gives no
    output, and an uncancelled run gives none or exactly one. *)
Lemma Mine_at_most_one_output_witness :
  (exists outs,
     fst (run Error Blk (mine miner (mkContext true false false) base 0) [])
       = [] ++ outs /\
     (List.length outs <= 1)%nat /\ outs = []) /\
  (exists outs,
     fst (run Error Blk (mine miner background base 0) []) = [] ++ outs /\
     (List.length outs <= 1)%nat /\ (outs <> [] <-> List.length outs = 1%nat)).
Proof.
  split.
  - destruct (at_miner twoSectors generate Mine_at_most_one_output
                miner (mkContext true false false) base 0 [])
      as (outs & Hout & Hlen & Hentry & _).
    exists outs. split; [exact Hout |]. split; [exact Hlen |].
    apply Hentry; reflexivity.
  - destruct (at_miner twoSectors generate Mine_at_most_one_output
                miner background base 0 [])
      as (outs & Hout & Hlen & _ & Hnever).
    exists outs. split; [exact Hout |]. split; [exact Hlen |].
    apply Hnever. repeat split.
Defined.


(** Miners with a failing collaborator: no state view, a proof engine that
    fails to generate candidates, and one that fails to generate the proof. *)
Definition errEngine : Error := "proof engine failed"%string.

Definition noState : DefaultWorker nat Error nat unit Cand (list nat) unit unit :=
  {| api := mkAPI nat Error unit (fun _ => Fail errNoPower);
     minerAddr := minerAddr _ _ _ _ _ _ _ _ miner;
     minerOwnerAddr := minerOwnerAddr _ _ _ _ _ _ _ _ miner;
     workerSigner := tt;
     getAncestors := getAncestors _ _ _ _ _ _ _ _ miner;
     election := election _ _ _ _ _ _ _ _ miner;
     ticketGen := ticketGen _ _ _ _ _ _ _ _ miner;
     poster := tt |}.

Definition withEngine
    (candidates : result Error (list Cand)) (post : result Error (list byte))
    : DefaultWorker nat Error nat unit Cand (list nat) unit unit :=
  {| api := api _ _ _ _ _ _ _ _ miner;
     minerAddr := minerAddr _ _ _ _ _ _ _ _ miner;
     minerOwnerAddr := minerOwnerAddr _ _ _ _ _ _ _ _ miner;
     workerSigner := tt;
     getAncestors := getAncestors _ _ _ _ _ _ _ _ miner;
     election :=
       {| GeneratePoStRandomness := fun t _ _ n =>
            Ok (Chain.VRFProof t ++ [Binary.byteOf n]);
          GenerateCandidates := fun _ _ _ => candidates;
          GeneratePoSt := fun _ _ _ _ => post;
          CandidateWins := winTest |};
     ticketGen := ticketGen _ _ _ _ _ _ _ _ miner;
     poster := tt |}.

Definition failed (e : Error) : Chan Error Blk * bool :=
  ([NewOutput Error Blk None (Some e)], false).

(** X13 on the miner without a state view. *)
Lemma Mine_prepare_failure_witness :
  run Error Blk (mine noState background base 0) [] = failed errNoPower.
Proof.
  apply (at_miner twoSectors generate Mine_prepare_failure
           noState background base 0 [] errNoPower); reflexivity.
Defined.

(** X14 on miners with a failing engine and a failing sector count. *)
Lemma Mine_late_failure_witness :
  run Error Blk
    (mine (withEngine (Fail errEngine) (Ok [x01])) background base 0) []
    = failed errEngine /\
  run Error Blk
    (mineWith (fun _ _ => Fail errNoPower) miner background base 0) []
    = failed errNoPower /\
  run Error Blk
    (mine (withEngine (Ok [candA; candB]) (Fail errEngine)) background base 0) []
    = failed errEngine.
Proof.
  split; [| split].
  - destruct (at_miner twoSectors generate Mine_late_failure
                (withEngine (Fail errEngine) (Ok [x01])) background base 0 []
                prepared errEngine eq_refl eq_refl eq_refl eq_refl)
      as (H & _ & _).
    exact (H eq_refl).
  - destruct (at_miner (fun (_ : unit) (_ : nat) => Fail errNoPower) generate
                Mine_late_failure miner background base 0 []
                prepared errNoPower eq_refl eq_refl eq_refl eq_refl)
      as (_ & H & _).
    exact (H [candA; candB] eq_refl eq_refl).
  - destruct (at_miner twoSectors generate Mine_late_failure
                (withEngine (Ok [candA; candB]) (Fail errEngine)) background base 0 []
                prepared errEngine eq_refl eq_refl eq_refl eq_refl)
      as (_ & _ & H).
    apply (H [candA; candB] 2 100 1024 eq_refl eq_refl);
      [discriminate | reflexivity | reflexivity].
Defined.

(** X15 on the small miner and on the loser. *)
Lemma Mine_result_shape_witness :
  (fst (run Error Blk (mine loser background base 0) []) = [] \/
   exists e,
     fst (run Error Blk (mine loser background base 0) [])
     = [] ++ [NewOutput Error Blk None (Some e)]) /\
  (exists next err,
     fst (run Error Blk (mine miner background base 0) [])
     = [] ++ [NewOutput Error Blk next err]).
Proof.
  split.
  - apply (proj1 (at_miner twoSectors generate Mine_result_shape
                    loser background base 0 [])).
    reflexivity.
  - apply (proj2 (at_miner twoSectors generate Mine_result_shape
                    miner background base 0 [])).
    reflexivity.
Defined.

(** X16 on the small miner: the base has height 7 and no null blocks are
    mined, so only the ancestors at height 8 are asked for. *)
Lemma Mine_ancestors_height_witness :
  run Error Blk
    (mine (withAncestors nat Error nat unit Cand (list nat) unit unit miner
             (fun b h => if h =? 8 then Ok [b] else Fail errEngine))
       background base 0) []
  = run Error Blk (mine miner background base 0) [].
Proof.
  apply (at_miner twoSectors generate Mine_ancestors_height
           miner (fun b h => if h =? 8 then Ok [b] else Fail errEngine)
           background base 0 [] 7).
  - reflexivity.
  - lia.
  - lia.
  - reflexivity.
Defined.


(** X18 on the small miner: an engine that proves only the winner [candA]
    over the sector set and randomness of this attempt. *)
Lemma Mine_final_proof_inputs_witness :
  run Error Blk
    (mine (withPoSt nat Error nat unit Cand (list nat) unit unit miner
             (fun sectors rand winners _ =>
                match sectors, rand, winners with
                | [1%nat; 2%nat], [x37; x00], [(1%nat, [x00; x0a])] => Ok [x01]
                | _, _, _ => Fail errEngine
                end))
       background base 0) []
  = run Error Blk (mine miner background base 0) [].
Proof.
  apply (at_miner twoSectors generate Mine_final_proof_inputs
           miner
           (fun sectors rand winners _ =>
              match sectors, rand, winners with
              | [1%nat; 2%nat], [x37; x00], [(1%nat, [x00; x0a])] => Ok [x01]
              | _, _, _ => Fail errEngine
              end)
           background base 0 [] prepared [candA; candB] 2 100 1024);
    reflexivity.
Defined.


End Example.

End Mining.
